(** * open-builder: launcher, configuration and endpoint identity

    A shallow embedding of [src/main.cpp] (configuration file loading,
    command line parsing, launch orchestration, exit codes) and of
    [src/common/network/endpoint.h] (endpoint equality), with the
    properties the specification states about them.

    Conventions.
    - [int] is the 32-bit two's complement integer, carried as [Z] with
      its range checks written out where the library performs them.
    - [std::string] is [string]; a text stream is the string of the
      characters not yet consumed plus its fail bit.
    - Output, logging, thread and network-library calls are recorded as
      a trace of [Event]s; exceptions and [return] are completions of a
      small monad [M]. *)

From Stdlib Require Import ZArith List String Ascii Bool Lia DecimalString.
From Stdlib Require Decimal DecimalPos DecimalZ.
Import ListNotations.

Local Open Scope Z_scope.

(* ------------------------------------------------------------------ *)
(** * Characters and decimal text *)

Module Text.

Definition code (c : ascii) : Z := Z.of_N (N_of_ascii c).

(** [isspace] in the "C" locale: space, \t, \n, \v, \f, \r. *)
Definition isspace (c : ascii) : bool :=
  (code c =? 32) || ((9 <=? code c) && (code c <=? 13)).

Definition isdigit (c : ascii) : bool :=
  (48 <=? code c) && (code c <=? 57).

Definition digit_value (c : ascii) : Z := code c - 48.

Definition dash : ascii := ascii_of_nat 45.
Definition plus : ascii := ascii_of_nat 43.
Definition dquote : ascii := ascii_of_nat 34.
Definition newline : ascii := ascii_of_nat 10.

Definition nl : string := String newline EmptyString.
Definition quote : string := String dquote EmptyString.

Fixpoint skip_space (s : string) : string :=
  match s with
  | String c s' => if isspace c then skip_space s' else s
  | EmptyString => s
  end.

(** The longest run of decimal digits at the front of [s], accumulated
    into [acc], and what follows it. *)
Fixpoint digits (acc : Z) (s : string) : Z * string :=
  match s with
  | String c s' =>
      if isdigit c then digits (10 * acc + digit_value c) s' else (acc, s)
  | EmptyString => (acc, s)
  end.

Definition starts_with_digit (s : string) : bool :=
  match s with
  | String c _ => isdigit c
  | EmptyString => false
  end.

(** An optional sign followed by decimal digits, as [strtol] in base 10
    and the [%d] stage of [num_get] both read it.  [None]: no digit was
    found (the sign, if any, has been consumed all the same, which only
    matters to a caller that goes on reading). *)
Definition signed_decimal (s : string) : option Z * string :=
  let '(negative, s1) :=
    match s with
    | String c s' =>
        if Ascii.eqb c dash then (true, s')
        else if Ascii.eqb c plus then (false, s')
        else (false, s)
    | EmptyString => (false, s)
    end in
  if starts_with_digit s1 then
    let '(m, rest) := digits 0 s1 in
    (Some (if negative then - m else m), rest)
  else (None, s1).

Definition INT_MIN : Z := - 2 ^ 31.
Definition INT_MAX : Z := 2 ^ 31 - 1.

Definition in_int_range (v : Z) : bool := (INT_MIN <=? v) && (v <=? INT_MAX).

(** [std::to_string(int)]. *)
Definition to_string (v : Z) : string := NilZero.string_of_int (Z.to_int v).

End Text.

(* ------------------------------------------------------------------ *)
(** * Configuration data *)

Inductive LaunchType : Type :=
| Server
| Client
| Both
| TwoPlayer.

(** Modelled from the spec: [server/server_config.h] is not part of the
    available sources.  The fields are the ones [main.cpp] reads or
    writes; they are [int] there ([maxConnections] is assigned the
    literal 4, the world options are the numeric options of the
    configuration source). *)
Record ServerConfig : Type := mkServerConfig {
  maxConnections : Z;
  worldSize : Z;
  worldHeight : Z
}.

(** Modelled from the spec: [client/client_config.h] is not part of the
    available sources.  The fields are the ones [main.cpp] writes:
    two flags, four numeric options and the skin name, which
    [parseArgs] assigns from a [std::string]. *)
Record ClientConfig : Type := mkClientConfig {
  fullScreen : bool;
  windowWidth : Z;
  windowHeight : Z;
  isFpsCapped : bool;
  fpsLimit : Z;
  fov : Z;
  skinName : string
}.

Record Config : Type := mkConfig {
  launchType : LaunchType;
  serverOptions : ServerConfig;
  clientOptions : ClientConfig
}.

Definition with_launchType (t : LaunchType) (c : Config) : Config :=
  mkConfig t (serverOptions c) (clientOptions c).

Definition with_server (f : ServerConfig -> ServerConfig) (c : Config) : Config :=
  mkConfig (launchType c) (f (serverOptions c)) (clientOptions c).

Definition with_client (f : ClientConfig -> ClientConfig) (c : Config) : Config :=
  mkConfig (launchType c) (serverOptions c) (f (clientOptions c)).

Definition set_maxConnections (v : Z) (s : ServerConfig) : ServerConfig :=
  mkServerConfig v (worldSize s) (worldHeight s).
Definition set_worldSize (v : Z) (s : ServerConfig) : ServerConfig :=
  mkServerConfig (maxConnections s) v (worldHeight s).
Definition set_worldHeight (v : Z) (s : ServerConfig) : ServerConfig :=
  mkServerConfig (maxConnections s) (worldSize s) v.

Definition set_fullScreen (v : bool) (c : ClientConfig) : ClientConfig :=
  mkClientConfig v (windowWidth c) (windowHeight c) (isFpsCapped c)
                 (fpsLimit c) (fov c) (skinName c).
Definition set_windowWidth (v : Z) (c : ClientConfig) : ClientConfig :=
  mkClientConfig (fullScreen c) v (windowHeight c) (isFpsCapped c)
                 (fpsLimit c) (fov c) (skinName c).
Definition set_windowHeight (v : Z) (c : ClientConfig) : ClientConfig :=
  mkClientConfig (fullScreen c) (windowWidth c) v (isFpsCapped c)
                 (fpsLimit c) (fov c) (skinName c).
Definition set_isFpsCapped (v : bool) (c : ClientConfig) : ClientConfig :=
  mkClientConfig (fullScreen c) (windowWidth c) (windowHeight c) v
                 (fpsLimit c) (fov c) (skinName c).
Definition set_fpsLimit (v : Z) (c : ClientConfig) : ClientConfig :=
  mkClientConfig (fullScreen c) (windowWidth c) (windowHeight c)
                 (isFpsCapped c) v (fov c) (skinName c).
Definition set_fov (v : Z) (c : ClientConfig) : ClientConfig :=
  mkClientConfig (fullScreen c) (windowWidth c) (windowHeight c)
                 (isFpsCapped c) (fpsLimit c) v (skinName c).
Definition set_skinName (v : string) (c : ClientConfig) : ClientConfig :=
  mkClientConfig (fullScreen c) (windowWidth c) (windowHeight c)
                 (isFpsCapped c) (fpsLimit c) (fov c) v.

(** What the missing headers declare and [main.cpp] uses: the two
    connection-count constants that appear in the messages of
    [parseArgs], and the member initialisers of the two option
    structs. *)
Record Declarations : Type := mkDeclarations {
  MIN_CONNECTIONS : Z;
  MAX_CONNECTIONS : Z;
  defaultServerOptions : ServerConfig;
  defaultClientOptions : ClientConfig
}.

(** [Config config;] in [main]: the launch type initialiser is in
    [main.cpp], the rest comes from the option structs. *)
Definition defaultConfig (d : Declarations) : Config :=
  mkConfig TwoPlayer (defaultServerOptions d) (defaultClientOptions d).

(* ------------------------------------------------------------------ *)
(** * Effects: traces, exceptions, early return *)

(** [sf::Time] holds a number of microseconds. *)
Record Time : Type := mkTime { asMicroseconds : Z }.
Definition seconds (s : Z) : Time := mkTime (s * 1000000).
Definition milliseconds (ms : Z) : Time := mkTime (ms * 1000).

(** The callables handed to [std::thread], with their copied arguments. *)
Inductive Task : Type :=
| LaunchServerTask (config : ServerConfig) (timeout : Time)
| LaunchClientTask (config : ClientConfig).

Inductive Event : Type :=
| EnetInitialize
| EnetDeinitialize
| Stdout (text : string)
| Stderr (text : string)
| Log (who what : string)
| RunServerEngine (config : ServerConfig) (timeout : Time)
| RunClientEngine (config : ClientConfig)
| SleepFor (ms : Z)
| ThreadStart (name : string) (task : Task)
| ThreadJoin (name : string).

Inductive exn : Type :=
| invalid_argument (what : string)
| out_of_range (what : string).

Inductive completion (A : Type) : Type :=
| Normal (a : A)
| Returned (code : Z)
| Thrown (e : exn).
Arguments Normal {A} a.
Arguments Returned {A} code.
Arguments Thrown {A} e.

Definition M (A : Type) : Type := list Event * completion A.

Definition ret {A} (a : A) : M A := ([], Normal a).
Definition tell (e : Event) : M unit := ([e], Normal tt).
Definition throw {A} (e : exn) : M A := ([], Thrown e).
Definition return_ {A} (code : Z) : M A := ([], Returned code).

Definition bind {A B} (m : M A) (k : A -> M B) : M B :=
  match m with
  | (t, Normal a) => let '(t', r) := k a in (t ++ t', r)
  | (t, Returned z) => (t, Returned z)
  | (t, Thrown e) => (t, Thrown e)
  end.

Declare Scope m_scope.
Delimit Scope m_scope with M.
Notation "x <- m ;; k" := (bind m (fun x => k))
  (at level 61, m at next level, right associativity) : m_scope.
Notation "m ;; k" := (bind m (fun _ => k))
  (at level 61, right associativity) : m_scope.
Local Open Scope m_scope.

(** [try { body } catch (std::invalid_argument &e) { handler }]: every
    other exception passes through. *)
Definition try_catch_invalid_argument {A}
    (body : M A) (handler : string -> M A) : M A :=
  match body with
  | (t, Thrown (invalid_argument what)) =>
      let '(t', r) := handler what in (t ++ t', r)
  | other => other
  end.

Definition trace {A} (m : M A) : list Event := fst m.
Definition result {A} (m : M A) : completion A := snd m.

(* ------------------------------------------------------------------ *)
(** * [std::stoi] *)

(** [std::stoi(str)] with the default base 10: leading white space is
    skipped, then an optional sign and the digits are read and whatever
    follows is left alone.  Without a digit it throws
    [std::invalid_argument]; a value that does not fit [int] throws
    [std::out_of_range].  The [what()] text is the one of libstdc++. *)
Definition stoi (str : string) : M Z :=
  match fst (Text.signed_decimal (Text.skip_space str)) with
  | None => throw (invalid_argument "stoi")
  | Some v =>
      if Text.in_int_range v then ret v else throw (out_of_range "stoi")
  end.

(* ------------------------------------------------------------------ *)
(** * [parseArgs] *)

Section CommandLine.

Context (decl : Declarations).

Definition fallback_notice (what : string) : string :=
  ("Unable to set max connections, defaulting to 4. Reason: "
     ++ what ++ Text.nl)%string.

Definition below_minimum : string :=
  ("Max connections must be at least "
     ++ Text.to_string (MIN_CONNECTIONS decl) ++ "." ++ Text.nl)%string.

Definition above_maximum : string :=
  ("Max connections must be "
     ++ Text.to_string (MAX_CONNECTIONS decl) ++ " or below." ++ Text.nl)%string.

(** One turn of the loop of [parseArgs].  In the [-server] branch the
    parsed count lives in a local of the [try] block: the block checks
    it and ends; only the handler writes [maxConnections]. *)
Definition parseOption (config : Config) (option : string * string) : M Config :=
  if (fst option =? "-server")%string then
    let config := with_launchType Server config in
    try_catch_invalid_argument
      (maxConnections <- stoi (snd option) ;;
       if maxConnections <? 2 then throw (invalid_argument below_minimum)
       else if maxConnections >? 16 then throw (invalid_argument above_maximum)
       else ret config)
      (fun what =>
         tell (Stdout (fallback_notice what)) ;;
         ret (with_server (set_maxConnections 4) config))
  else if (fst option =? "-client")%string then
    ret (with_launchType Client config)
  else if (fst option =? "-skin")%string then
    ret (with_client (set_skinName (snd option)) config)
  else ret config.

Fixpoint parseArgs (config : Config) (args : list (string * string)) : M Config :=
  match args with
  | [] => ret config
  | option :: rest =>
      config' <- parseOption config option ;;
      parseArgs config' rest
  end.

(** The pairing loop of [main]: each [argv[i]] (i >= 1) that begins with
    a dash and has a successor is paired with that successor.
    [pairFrom l] handles the arguments from some index on. *)
Definition begins_with_dash (s : string) : bool :=
  match s with
  | String c _ => Ascii.eqb c Text.dash
  | EmptyString => false
  end.

Fixpoint pairFrom (l : list string) : list (string * string) :=
  match l with
  | [] => []
  | a :: tl =>
      match tl with
      | [] => []
      | b :: _ => (if begins_with_dash a then [(a, b)] else []) ++ pairFrom tl
      end
  end.

Definition pairArgs (argv : list string) : list (string * string) :=
  pairFrom (tl argv).

End CommandLine.

(* ------------------------------------------------------------------ *)
(** * Formatted input from [std::ifstream] *)

Module IStream.

(** The characters not yet read, and [failbit].  ([eofbit] is not kept:
    it is only ever set when [buf] has become empty, and from there the
    next extraction fails in its sentry with or without it.) *)
Record t : Type := mk { buf : string; failbit : bool }.

(** [std::ifstream inFile(name)]: a file that cannot be opened gives a
    stream with [failbit] set. *)
Definition open (file : option string) : t :=
  match file with
  | Some content => mk content false
  | None => mk EmptyString true
  end.

(** The sentry of a formatted extraction ([skipws] is on by default):
    nothing happens on a failed stream; otherwise white space is
    skipped, and reaching the end that way sets [failbit]. *)
Definition sentry (s : t) : option string :=
  if failbit s then None
  else match Text.skip_space (buf s) with
       | EmptyString => None
       | b => Some b
       end.

Definition after_failed_sentry (s : t) : t :=
  if failbit s then s else mk EmptyString true.

(** The longest run of characters that are not white space. *)
Fixpoint word (s : string) : string * string :=
  match s with
  | String c s' =>
      if Text.isspace c then (EmptyString, s)
      else let '(w, rest) := word s' in (String c w, rest)
  | EmptyString => (EmptyString, s)
  end.

(** [in >> str] for a [std::string]: [old] is the value kept when the
    sentry fails. *)
Definition get_string (s : t) (old : string) : string * t :=
  match sentry s with
  | None => (old, after_failed_sentry s)
  | Some b => let '(w, rest) := word b in (w, mk rest false)
  end.

(** [in >> n] for an [int] (C++11): without a digit 0 is stored, a value
    outside [int] is replaced by the nearest bound, and both set
    [failbit]. *)
Definition get_int (s : t) (old : Z) : Z * t :=
  match sentry s with
  | None => (old, after_failed_sentry s)
  | Some b =>
      match Text.signed_decimal b with
      | (None, rest) => (0, mk rest true)
      | (Some v, rest) =>
          if v <? Text.INT_MIN then (Text.INT_MIN, mk rest true)
          else if v >? Text.INT_MAX then (Text.INT_MAX, mk rest true)
          else (v, mk rest false)
      end
  end.

(** [in >> b] for a [bool] without [boolalpha]: read as a number; 0 is
    false, 1 is true, anything else stores true and sets [failbit];
    without a digit false (zero) is stored and [failbit] set. *)
Definition get_bool (s : t) (old : bool) : bool * t :=
  match sentry s with
  | None => (old, after_failed_sentry s)
  | Some b =>
      match Text.signed_decimal b with
      | (None, rest) => (false, mk rest true)
      | (Some v, rest) =>
          if v =? 0 then (false, mk rest false)
          else if v =? 1 then (true, mk rest false)
          else (true, mk rest true)
      end
  end.

End IStream.

(* ------------------------------------------------------------------ *)
(** * [loadFromConfigFile] *)

(** The body of the [while] loop once [line] has been read. *)
Definition loadEntry (config : Config) (line : string) (inFile : IStream.t)
  : Config * IStream.t :=
  let client := clientOptions config in
  let server := serverOptions config in
  if (line =? "FULLSCREEN")%string then
    let '(v, s) := IStream.get_bool inFile (fullScreen client) in
    (with_client (set_fullScreen v) config, s)
  else if (line =? "WIN_WIDTH")%string then
    let '(v, s) := IStream.get_int inFile (windowWidth client) in
    (with_client (set_windowWidth v) config, s)
  else if (line =? "WIN_HEIGHT")%string then
    let '(v, s) := IStream.get_int inFile (windowHeight client) in
    (with_client (set_windowHeight v) config, s)
  else if (line =? "FPS_CAPPED")%string then
    let '(v, s) := IStream.get_bool inFile (isFpsCapped client) in
    (with_client (set_isFpsCapped v) config, s)
  else if (line =? "FPS")%string then
    let '(v, s) := IStream.get_int inFile (fpsLimit client) in
    (with_client (set_fpsLimit v) config, s)
  else if (line =? "FOV")%string then
    let '(v, s) := IStream.get_int inFile (fov client) in
    (with_client (set_fov v) config, s)
  else if (line =? "SKIN")%string then
    let '(v, s) := IStream.get_string inFile (skinName client) in
    (with_client (set_skinName v) config, s)
  else if (line =? "WORLD_HEIGHT")%string then
    let '(v, s) := IStream.get_int inFile (worldHeight server) in
    (with_server (set_worldHeight v) config, s)
  else if (line =? "WORLD_SIZE")%string then
    let '(v, s) := IStream.get_int inFile (worldSize server) in
    (with_server (set_worldSize v) config, s)
  else (config, inFile).

(** [while (inFile >> line) { ... }].  Every turn that does not end the
    loop consumes at least one character, so [fuel] above the length of
    the unread text is never exhausted ([loadLoop_fuel] below). *)
Fixpoint loadLoop (fuel : nat) (config : Config) (inFile : IStream.t)
  : Config * IStream.t :=
  match fuel with
  | O => (config, inFile)
  | S fuel' =>
      let '(line, inFile1) := IStream.get_string inFile EmptyString in
      if IStream.failbit inFile1 then (config, inFile1)
      else
        let '(config', inFile2) := loadEntry config line inFile1 in
        loadLoop fuel' config' inFile2
  end.

Definition run_loadLoop (config : Config) (inFile : IStream.t) : Config * IStream.t :=
  loadLoop (S (String.length (IStream.buf inFile))) config inFile.

(** [file] is the content of [config.txt], or [None] when it cannot be
    opened. *)
Definition loadFromConfigFile (file : option string) (config : Config) : Config :=
  fst (run_loadLoop config (IStream.open file)).

(* ------------------------------------------------------------------ *)
(** * Launching the engines *)

(** [<cstdlib>]. *)
Definition EXIT_SUCCESS : Z := 0.
Definition EXIT_FAILURE : Z := 1.

(** Modelled from the spec: the header that declares [EngineStatus] is
    not part of the available sources.  The first six constructors are
    the enumerators [launchClient] names; [OtherStatus] stands for any
    value of the enumeration that its [switch] does not list. *)
Inductive EngineStatus : Type :=
| Exit
| Ok
| ExitServerDisconnect
| ExitServerTimeout
| GLInitError
| CouldNotConnect
| OtherStatus (value : Z).

(** What the engines, whose code is elsewhere, end with: the server
    engine, the client engine run by the launching thread, and the
    client engine run by the thread [client2]. *)
Record Engines : Type := mkEngines {
  serverEngine : EngineStatus;
  clientEngine : EngineStatus;
  client2Engine : EngineStatus
}.

Definition runServerEngine (outcome : EngineStatus)
    (config : ServerConfig) (timeout : Time) : M EngineStatus :=
  tell (RunServerEngine config timeout) ;; ret outcome.

Definition runClientEngine (outcome : EngineStatus)
    (config : ClientConfig) : M EngineStatus :=
  tell (RunClientEngine config) ;; ret outcome.

Definition exitSuccess (message : string) : M Z :=
  tell (Stdout ("Engine exited successfully." ++ Text.quote ++ message
                  ++ Text.quote ++ "." ++ Text.nl)%string) ;;
  ret EXIT_SUCCESS.

Definition exitFailure (message : string) : M Z :=
  tell (Stderr ("Engine exited with error: " ++ Text.quote ++ message
                  ++ Text.quote ++ "." ++ Text.nl)%string) ;;
  ret EXIT_FAILURE.

(** The result of [runServerEngine] is dropped. *)
Definition launchServer (outcome : EngineStatus)
    (config : ServerConfig) (timeout : Time) : M Z :=
  tell (Log "Launcher" "Launching server") ;;
  _ <- runServerEngine outcome config timeout ;;
  tell (Log "Launcher" "Server has exited.") ;;
  ret EXIT_SUCCESS.

Definition launchClient (outcome : EngineStatus) (config : ClientConfig) : M Z :=
  tell (Log "Launcher" "Launching client") ;;
  status <- runClientEngine outcome config ;;
  match status with
  | Exit | Ok => exitSuccess "Normal exit"
  | ExitServerDisconnect =>
      exitSuccess "Client was disconnected from the server."
  | ExitServerTimeout =>
      exitSuccess "Server timeout, client forcefully was disconnected."
  | GLInitError => exitFailure "OpenGL failed to initilise correctly"
  | CouldNotConnect =>
      exitFailure "Connection to server could not be established"
  | OtherStatus _ => exitFailure "Unknown error"
  end.

(** What a spawned thread runs.  [std::thread] drops the value its
    callable returns, and [join] returns nothing. *)
Definition runTask (engines : Engines) (task : Task) : M Z :=
  match task with
  | LaunchServerTask config timeout =>
      launchServer (serverEngine engines) config timeout
  | LaunchClientTask config => launchClient (client2Engine engines) config
  end.

Definition launchBoth (engines : Engines) (config : Config) : M Z :=
  tell (ThreadStart "serverThread"
          (LaunchServerTask (serverOptions config) (milliseconds 5000))) ;;
  tell (SleepFor 6500) ;;
  exit <- launchClient (clientEngine engines) (clientOptions config) ;;
  tell (ThreadJoin "serverThread") ;;
  ret exit.

Definition launchServerAnd2Players (engines : Engines) (config : Config) : M Z :=
  tell (ThreadStart "serverThread"
          (LaunchServerTask (serverOptions config) (milliseconds 20000))) ;;
  tell (SleepFor 1000) ;;
  tell (ThreadStart "client2" (LaunchClientTask (clientOptions config))) ;;
  exit <- launchClient (clientEngine engines) (clientOptions config) ;;
  tell (ThreadJoin "client2") ;;
  tell (ThreadJoin "serverThread") ;;
  ret exit.

(* ------------------------------------------------------------------ *)
(** * [main] *)

(** Everything [main] depends on from outside. *)
Record Inputs : Type := mkInputs {
  argv : list string;
  configFile : option string;
  enet_initialize : Z;
  engines : Engines
}.

(** The configuration [main] has built when it reaches its [switch]. *)
Definition configure (decl : Declarations)
    (file : option string) (argv : list string) : M Config :=
  parseArgs decl (loadFromConfigFile file (defaultConfig decl)) (pairArgs argv).

(** The [switch] of [main]; [return_] is a [return] of [main].
    [launchServer] is called with its default timeout. *)
Definition launchSwitch (e : Engines) (config : Config) : M unit :=
  match launchType config with
  | Both =>
      code <- launchBoth e config ;; return_ code
  | Server =>
      code <- launchServer (serverEngine e) (serverOptions config) (seconds 8) ;;
      return_ code
  | Client =>
      code <- launchClient (clientEngine e) (clientOptions config) ;;
      return_ code
  | TwoPlayer =>
      code <- launchServerAnd2Players e config ;; return_ code
  end.

(** The body of [main], statement by statement. *)
Definition mainBody (decl : Declarations) (inp : Inputs) : M unit :=
  tell EnetInitialize ;;
  (if negb (enet_initialize inp =? 0) then
     code <- exitFailure "Failed to initialise enet" ;; return_ code
   else ret tt) ;;
  config <- configure decl (configFile inp) (argv inp) ;;
  launchSwitch (engines inp) config ;;
  tell EnetDeinitialize.

Inductive ProcessEnd : Type :=
| Exited (code : Z)
| Terminated (e : exn).

(** Flowing off the end of [main] returns 0; an exception nobody catches
    ends the process through [std::terminate]. *)
Definition main (decl : Declarations) (inp : Inputs) : list Event * ProcessEnd :=
  match mainBody decl inp with
  | (t, Normal _) => (t, Exited 0)
  | (t, Returned code) => (t, Exited code)
  | (t, Thrown e) => (t, Terminated e)
  end.

Definition count_event (p : Event -> bool) (t : list Event) : nat :=
  List.length (List.filter p t).

Definition is_enet_initialize (e : Event) : bool :=
  match e with EnetInitialize => true | _ => false end.
Definition is_enet_deinitialize (e : Event) : bool :=
  match e with EnetDeinitialize => true | _ => false end.

(* ------------------------------------------------------------------ *)
(** * Endpoint *)

Module Net.

(** What [operator==] needs of [sf::IpAddress] (SFML): the address as a
    32-bit integer. *)
Class IpAddress (A : Type) : Type := { toInteger : A -> Z }.

(** [port_t] comes from [types.h], an unsigned integer type; equality on
    it is equality of the numbers. *)
Record Endpoint (A : Type) : Type := mkEndpoint {
  address : A;
  port : Z
}.
Arguments mkEndpoint {A} address port.
Arguments address {A} e.
Arguments port {A} e.

Definition operator_eq {A} `{IpAddress A} (left right : Endpoint A) : bool :=
  (port left =? port right)
  && (toInteger (address left) =? toInteger (address right)).

(** A sample address type: four octets, as in dotted notation, with a
    small name table standing for the resolver. *)
Record Octets : Type := mkOctets { o1 : Z; o2 : Z; o3 : Z; o4 : Z }.

#[global] Instance Octets_IpAddress : IpAddress Octets :=
  {| toInteger := fun a =>
       Z.lor (Z.shiftl (o1 a) 24)
         (Z.lor (Z.shiftl (o2 a) 16) (Z.lor (Z.shiftl (o3 a) 8) (o4 a))) |}.

Definition sample_resolve (text : string) : Octets :=
  if (text =? "localhost")%string then mkOctets 127 0 0 1
  else if (text =? "127.0.0.1")%string then mkOctets 127 0 0 1
  else if (text =? "192.168.0.7")%string then mkOctets 192 168 0 7
  else mkOctets 0 0 0 0.

End Net.

(* ------------------------------------------------------------------ *)
(** * Sample declarations and inputs *)

Definition sample_declarations : Declarations :=
  mkDeclarations 2 16
    (mkServerConfig 4 16 8)
    (mkClientConfig false 1280 720 true 60 65 "player").

Definition quiet_engines : Engines := mkEngines Exit Exit Exit.

(* ------------------------------------------------------------------ *)
(** * Vocabulary of the properties *)

Local Open Scope string_scope.

(** The two settings no configuration key reaches. *)
Definition launch_settings (c : Config) : LaunchType * Z :=
  (launchType c, maxConnections (serverOptions c)).

(** A trace without calls into the network library's global context. *)
Definition no_enet (t : list Event) : Prop :=
  count_event is_enet_initialize t = 0%nat
  /\ count_event is_enet_deinitialize t = 0%nat.

(** The keys [loadFromConfigFile] compares [line] with, in its order. *)
Inductive Key : Type :=
| FULLSCREEN
| WIN_WIDTH
| WIN_HEIGHT
| FPS_CAPPED
| FPS
| FOV
| SKIN
| WORLD_HEIGHT
| WORLD_SIZE.

Definition key_name (k : Key) : string :=
  match k with
  | FULLSCREEN => "FULLSCREEN"
  | WIN_WIDTH => "WIN_WIDTH"
  | WIN_HEIGHT => "WIN_HEIGHT"
  | FPS_CAPPED => "FPS_CAPPED"
  | FPS => "FPS"
  | FOV => "FOV"
  | SKIN => "SKIN"
  | WORLD_HEIGHT => "WORLD_HEIGHT"
  | WORLD_SIZE => "WORLD_SIZE"
  end.

Inductive Value : Type :=
| Flag (b : bool)
| Number (n : Z)
| Name (s : string).

(** The option each key's branch extracts into. *)
Definition option_of (k : Key) (c : Config) : Value :=
  match k with
  | FULLSCREEN => Flag (fullScreen (clientOptions c))
  | WIN_WIDTH => Number (windowWidth (clientOptions c))
  | WIN_HEIGHT => Number (windowHeight (clientOptions c))
  | FPS_CAPPED => Flag (isFpsCapped (clientOptions c))
  | FPS => Number (fpsLimit (clientOptions c))
  | FOV => Number (fov (clientOptions c))
  | SKIN => Name (skinName (clientOptions c))
  | WORLD_HEIGHT => Number (worldHeight (serverOptions c))
  | WORLD_SIZE => Number (worldSize (serverOptions c))
  end.

Definition all_keys : list Key :=
  [FULLSCREEN; WIN_WIDTH; WIN_HEIGHT; FPS_CAPPED; FPS; FOV; SKIN;
   WORLD_HEIGHT; WORLD_SIZE].

(** [line] is one of the keys. *)
Definition recognised (line : string) : bool :=
  existsb (fun k => (line =? key_name k)%string) all_keys.

(** A non-empty run of characters without white space: what one
    [inFile >> line] reads. *)
Fixpoint no_space (w : string) : bool :=
  match w with
  | EmptyString => true
  | String c w' => negb (Text.isspace c) && no_space w'
  end.

Definition is_word (w : string) : bool :=
  match w with
  | EmptyString => false
  | String _ _ => no_space w
  end.

(** [part] is what is left of [whole] after some characters were read. *)
Definition rest_of (whole part : string) : Prop :=
  exists read, whole = read ++ part.

(** [key] occurs somewhere in [text]. *)
Definition occurs (key text : string) : Prop :=
  exists before after, text = before ++ key ++ after.

(** The same, as a test. *)
Fixpoint starts_with (key text : string) : bool :=
  match key with
  | EmptyString => true
  | String k key' =>
      match text with
      | String t text' => Ascii.eqb k t && starts_with key' text'
      | EmptyString => false
      end
  end.

Fixpoint occursb (key text : string) : bool :=
  starts_with key text
  || match text with
     | String _ text' => occursb key text'
     | EmptyString => false
     end.

(** How [parseArgs] takes the count of a [-server] option: it falls
    back to 4 connections, or the count does not fit [int]. *)
Definition falls_back (text : string) : bool :=
  match result (stoi text) with
  | Normal n => (n <? 2)%Z || (n >? 16)%Z
  | Thrown (invalid_argument _) => true
  | _ => false
  end.

Definition overflows (text : string) : bool :=
  match result (stoi text) with
  | Thrown (out_of_range _) => true
  | _ => false
  end.

Definition is_option (name : string) (o : string * string) : bool :=
  (fst o =? name)%string.

(** What one option does to the launch type and to the skin name, and
    whether it ends the process or prints the fall-back notice. *)
Definition launch_choice (ty : LaunchType) (o : string * string) : LaunchType :=
  if is_option "-server" o then Server
  else if is_option "-client" o then Client
  else ty.

Definition skin_choice (s : string) (o : string * string) : string :=
  if is_option "-skin" o then snd o else s.

Definition aborts_on (o : string * string) : bool :=
  is_option "-server" o && overflows (snd o).

Definition notice_on (o : string * string) : bool :=
  is_option "-server" o && falls_back (snd o).

(** The threads a trace starts and the threads it joins, in order. *)
Definition started (t : list Event) : list string :=
  flat_map (fun e => match e with ThreadStart n _ => [n] | _ => [] end) t.

Definition joined (t : list Event) : list string :=
  flat_map (fun e => match e with ThreadJoin n => [n] | _ => [] end) t.

Definition is_stdout (e : Event) : bool :=
  match e with Stdout _ => true | _ => false end.

Definition is_stderr (e : Event) : bool :=
  match e with Stderr _ => true | _ => false end.

(** The events only [launchBoth] produces: its 6.5 s pause and its
    server thread with a 5 s timeout. *)
Definition only_in_launchBoth (e : Event) : bool :=
  match e with
  | SleepFor ms => (ms =? 6500)%Z
  | ThreadStart _ (LaunchServerTask _ timeout) =>
      (asMicroseconds timeout =? asMicroseconds (milliseconds 5000))%Z
  | _ => false
  end.

Definition is_engine_run (e : Event) : bool :=
  match e with
  | RunServerEngine _ _ | RunClientEngine _ | ThreadStart _ _ => true
  | _ => false
  end.

(** Storing a value into the option of a key; a value of the wrong kind
    is not stored. *)
Definition set_option (k : Key) (v : Value) (c : Config) : Config :=
  match k, v with
  | FULLSCREEN, Flag b => with_client (set_fullScreen b) c
  | WIN_WIDTH, Number n => with_client (set_windowWidth n) c
  | WIN_HEIGHT, Number n => with_client (set_windowHeight n) c
  | FPS_CAPPED, Flag b => with_client (set_isFpsCapped b) c
  | FPS, Number n => with_client (set_fpsLimit n) c
  | FOV, Number n => with_client (set_fov n) c
  | SKIN, Name s => with_client (set_skinName s) c
  | WORLD_HEIGHT, Number n => with_server (set_worldHeight n) c
  | WORLD_SIZE, Number n => with_server (set_worldSize n) c
  | _, _ => c
  end.

Definition is_numeric (k : Key) : bool :=
  match k with
  | WIN_WIDTH | WIN_HEIGHT | FPS | FOV | WORLD_HEIGHT | WORLD_SIZE => true
  | FULLSCREEN | FPS_CAPPED | SKIN => false
  end.

Definition is_flag (k : Key) : bool :=
  match k with
  | FULLSCREEN | FPS_CAPPED => true
  | _ => false
  end.

Fixpoint all_space (s : string) : bool :=
  match s with
  | EmptyString => true
  | String c s' => Text.isspace c && all_space s'
  end.

(** The first character cannot begin a number: neither a digit nor a
    sign (nor white space, nor the end of the text). *)
Definition begins_no_number (s : string) : bool :=
  match s with
  | EmptyString => false
  | String c _ =>
      negb (Text.isspace c) && negb (Text.isdigit c)
      && negb (Ascii.eqb c Text.dash) && negb (Ascii.eqb c Text.plus)
  end.

(* ================================================================== *)
(** * Properties *)

(** ** The loader never touches the launch type or the connection count *)

Ltac split_entry :=
  unfold loadEntry;
  repeat match goal with
         | |- context [if (?a =? ?b)%string then _ else _] =>
             destruct (a =? b)%string
         | |- context [let '(_, _) := ?e in _] => destruct e
         end.

Lemma loadEntry_launch_settings config line inFile :
  launch_settings (fst (loadEntry config line inFile)) = launch_settings config.
Proof. split_entry; reflexivity. Qed.

Lemma loadLoop_launch_settings fuel : forall config inFile,
  launch_settings (fst (loadLoop fuel config inFile)) = launch_settings config.
Proof.
  induction fuel as [|fuel IH]; intros config inFile; simpl; [reflexivity|].
  destruct (IStream.get_string inFile EmptyString) as [line inFile1].
  destruct (IStream.failbit inFile1); [reflexivity|].
  pose proof (loadEntry_launch_settings config line inFile1) as E.
  destruct (loadEntry config line inFile1) as [config' inFile2].
  rewrite IH. exact E.
Qed.

Lemma loadFromConfigFile_launch_settings file config :
  launch_settings (loadFromConfigFile file config) = launch_settings config.
Proof. apply loadLoop_launch_settings. Qed.

(** ** [parseArgs] on a [-server] option *)

Lemma stoi_cases text :
  stoi text = ([], Thrown (invalid_argument "stoi"))
  \/ stoi text = ([], Thrown (out_of_range "stoi"))
  \/ exists n, stoi text = ([], Normal n).
Proof.
  unfold stoi.
  destruct (fst (Text.signed_decimal (Text.skip_space text))) as [v|].
  - destruct (Text.in_int_range v);
      [right; right; exists v; reflexivity | right; left; reflexivity].
  - left; reflexivity.
Qed.

Lemma parseOption_server_in_range decl config text n :
  stoi text = ([], Normal n) -> 2 <= n <= 16 ->
  parseOption decl config ("-server", text)
  = ([], Normal (with_launchType Server config)).
Proof.
  intros E R. unfold parseOption. simpl. rewrite E. simpl.
  destruct (Z.ltb_spec n 2); [lia|].
  destruct (Z.gtb_spec n 16); [lia|]. reflexivity.
Qed.

Lemma parseOption_server_fallback decl config text :
  stoi text = ([], Thrown (invalid_argument "stoi"))
  \/ (exists n, stoi text = ([], Normal n) /\ (n < 2 \/ 16 < n)) ->
  exists reason,
    parseOption decl config ("-server", text)
    = ([Stdout (fallback_notice reason)],
       Normal (with_server (set_maxConnections 4)
                 (with_launchType Server config))).
Proof.
  intros [E | (n & E & R)]; unfold parseOption; simpl; rewrite E; simpl.
  - eexists; reflexivity.
  - destruct (Z.ltb_spec n 2); [eexists; reflexivity|].
    destruct (Z.gtb_spec n 16); [eexists; reflexivity | lia].
Qed.

Lemma parseOption_server_out_of_range decl config text :
  stoi text = ([], Thrown (out_of_range "stoi")) ->
  parseOption decl config ("-server", text) = ([], Thrown (out_of_range "stoi")).
Proof. intros E. unfold parseOption. simpl. rewrite E. reflexivity. Qed.

(** C1. The claim is that [-server N] with [2 <= N <= 16] makes the
    launch type [Server] and stores [N] as [maxConnections].  The code
    parses and checks the count and then drops it: on the command line
    [-server <text>], with [text] read by [std::stoi] as a number from 2
    to 16, [main] reaches its [switch] with launch type [Server], no
    message, and [maxConnections] still at the initial value of
    [ServerConfig], whatever [config.txt] holds. *)
Theorem C1_server_count_is_dropped :
  forall (decl : Declarations) (file : option string)
         (program text : string) (n : Z),
    stoi text = ([], Normal n) ->
    2 <= n <= 16 ->
    exists config,
      configure decl file [program; "-server"; text] = ([], Normal config)
      /\ launchType config = Server
      /\ maxConnections (serverOptions config)
         = maxConnections (defaultServerOptions decl).
Proof.
  intros decl file program text n E R.
  pose proof (loadFromConfigFile_launch_settings file (defaultConfig decl)) as L.
  unfold configure, pairArgs. simpl.
  rewrite (parseOption_server_in_range decl _ text n E R). simpl.
  eexists; split; [reflexivity|]. split; [reflexivity|].
  simpl. unfold launch_settings in L. simpl in L. congruence.
Qed.

(** At [-server 8], with 4 as the initial [maxConnections], the value
    the server gets is 4 and not 8. *)
Lemma C1_server_8_witness :
  exists config,
    configure sample_declarations None ["open-builder"; "-server"; "8"]
    = ([], Normal config)
    /\ launchType config = Server
    /\ maxConnections (serverOptions config) = 4
    /\ maxConnections (serverOptions config) <> 8.
Proof.
  destruct (C1_server_count_is_dropped sample_declarations None
              "open-builder" "8" 8 eq_refl ltac:(lia))
    as (config & E & T & V).
  exists config. repeat split; try assumption.
  rewrite V. simpl. lia.
Defined.

(** C2. The claim is that an out-of-range or non-numeric [-server]
    count is always recovered from (4 connections, a logged reason, no
    abort).  A count beyond the range of [int] makes [std::stoi] throw
    [std::out_of_range], which the handler for [std::invalid_argument]
    does not catch: the exception leaves [parseArgs] and [main], and the
    process is terminated before any engine is launched. *)
Theorem C2_huge_server_count_terminates :
  forall (decl : Declarations) (file : option string) (e : Engines),
    main decl (mkInputs ["open-builder"; "-server"; "99999999999"] file 0 e)
    = ([EnetInitialize], Terminated (out_of_range "stoi")).
Proof. intros decl file e. reflexivity. Qed.

(** ** Traces of the launcher *)

Lemma bind_trace {A B} (m : M A) (k : A -> M B) :
  trace (bind m k)
  = (trace m ++ match result m with
                | Normal a => trace (k a)
                | _ => []
                end)%list.
Proof.
  destruct m as [t [a | z | e]]; unfold bind, trace, result; simpl;
    [destruct (k a); reflexivity | | ]; now rewrite app_nil_r.
Qed.

Lemma count_event_app p (t1 t2 : list Event) :
  count_event p (t1 ++ t2) = (count_event p t1 + count_event p t2)%nat.
Proof. unfold count_event. now rewrite filter_app, length_app. Qed.

Lemma no_enet_nil : no_enet [].
Proof. split; reflexivity. Qed.

Lemma no_enet_app t1 t2 : no_enet t1 -> no_enet t2 -> no_enet (t1 ++ t2).
Proof.
  intros [A1 B1] [A2 B2]; split; rewrite count_event_app; lia.
Qed.

Lemma no_enet_bind {A B} (m : M A) (k : A -> M B) :
  no_enet (trace m) -> (forall a, no_enet (trace (k a))) ->
  no_enet (trace (bind m k)).
Proof.
  intros Hm Hk. rewrite bind_trace. apply no_enet_app; [exact Hm|].
  destruct (result m); [apply Hk | apply no_enet_nil | apply no_enet_nil].
Qed.

Lemma parseOption_no_enet decl config option :
  no_enet (trace (parseOption decl config option)).
Proof.
  unfold parseOption.
  destruct (fst option =? "-server").
  - destruct (stoi_cases (snd option)) as [E | [E | [n E]]]; rewrite E; simpl.
    + split; reflexivity.
    + split; reflexivity.
    + destruct (n <? 2)%Z; [split; reflexivity|].
      destruct (n >? 16)%Z; split; reflexivity.
  - destruct (fst option =? "-client"); [split; reflexivity|].
    destruct (fst option =? "-skin"); split; reflexivity.
Qed.

Lemma parseArgs_no_enet decl args : forall config,
  no_enet (trace (parseArgs decl config args)).
Proof.
  induction args as [|option rest IH]; intros config; simpl.
  - apply no_enet_nil.
  - apply no_enet_bind; [apply parseOption_no_enet | intros; apply IH].
Qed.

Lemma launchClient_no_enet status config :
  no_enet (trace (launchClient status config)).
Proof. destruct status; split; reflexivity. Qed.

Lemma launchServer_no_enet outcome config timeout :
  no_enet (trace (launchServer outcome config timeout)).
Proof. split; reflexivity. Qed.

Lemma launchBoth_no_enet e config : no_enet (trace (launchBoth e config)).
Proof. destruct (clientEngine e) eqn:E; unfold launchBoth; rewrite E; split; reflexivity. Qed.

Lemma launchServerAnd2Players_no_enet e config :
  no_enet (trace (launchServerAnd2Players e config)).
Proof.
  destruct (clientEngine e) eqn:E; unfold launchServerAnd2Players; rewrite E;
    split; reflexivity.
Qed.

(** Every launch returns from [main]: nothing flows on to the statement
    after the [switch]. *)
Lemma launch_result {A} (m : M Z) :
  (exists code, result m = Normal code) ->
  exists code, result (code <- m ;; return_ (A := A) code) = Returned code.
Proof.
  intros [code E]. exists code. destruct m as [t r]. simpl in E. subst r.
  reflexivity.
Qed.

Lemma launchClient_result status config :
  result (launchClient status config)
  = Normal match status with
           | Exit | Ok | ExitServerDisconnect | ExitServerTimeout => 0
           | GLInitError | CouldNotConnect | OtherStatus _ => 1
           end.
Proof. destruct status; reflexivity. Qed.

Lemma launchBoth_result e config :
  result (launchBoth e config)
  = result (launchClient (clientEngine e) (clientOptions config)).
Proof.
  unfold launchBoth. destruct (clientEngine e); reflexivity.
Qed.

Lemma launchServerAnd2Players_result e config :
  result (launchServerAnd2Players e config)
  = result (launchClient (clientEngine e) (clientOptions config)).
Proof.
  unfold launchServerAnd2Players. destruct (clientEngine e); reflexivity.
Qed.

Lemma launchSwitch_returns e config :
  exists code, result (launchSwitch e config) = Returned code.
Proof.
  unfold launchSwitch.
  destruct (launchType config); apply launch_result.
  - eexists; reflexivity.
  - rewrite launchClient_result; eauto.
  - rewrite launchBoth_result, launchClient_result; eauto.
  - rewrite launchServerAnd2Players_result, launchClient_result; eauto.
Qed.

Lemma launchSwitch_no_enet e config : no_enet (trace (launchSwitch e config)).
Proof.
  unfold launchSwitch.
  destruct (launchType config); apply no_enet_bind;
    first [ apply launchServer_no_enet | apply launchClient_no_enet
          | apply launchBoth_no_enet | apply launchServerAnd2Players_no_enet
          | intros; apply no_enet_nil ].
Qed.

(** What [main] does once the network library is up: the exit code is
    the one its [switch] returns. *)
Lemma main_after_configure decl inp t config code :
  enet_initialize inp = 0 ->
  configure decl (configFile inp) (argv inp) = (t, Normal config) ->
  result (launchSwitch (engines inp) config) = Returned code ->
  main decl inp
  = (EnetInitialize :: t ++ trace (launchSwitch (engines inp) config),
     Exited code)%list.
Proof.
  intros E C S. unfold main, mainBody. rewrite E, C. simpl.
  destruct (launchSwitch (engines inp) config) as [t' r]. simpl in S. subst r.
  reflexivity.
Qed.

Lemma main_enet_failure decl inp :
  enet_initialize inp <> 0 ->
  main decl inp
  = ([EnetInitialize;
      Stderr ("Engine exited with error: " ++ Text.quote
                ++ "Failed to initialise enet" ++ Text.quote ++ "." ++ Text.nl)],
     Exited 1).
Proof.
  intros E. unfold main, mainBody.
  destruct (Z.eqb_spec (enet_initialize inp) 0); [contradiction|]. reflexivity.
Qed.

Lemma main_configure_aborts decl inp t e :
  enet_initialize inp = 0 ->
  configure decl (configFile inp) (argv inp) = (t, Thrown e) ->
  main decl inp = (EnetInitialize :: t, Terminated e).
Proof. intros E C. unfold main, mainBody. rewrite E, C. reflexivity. Qed.

Lemma main_configure_returns decl inp t code :
  enet_initialize inp = 0 ->
  configure decl (configFile inp) (argv inp) = (t, Returned code) ->
  main decl inp = (EnetInitialize :: t, Exited code).
Proof. intros E C. unfold main, mainBody. rewrite E, C. reflexivity. Qed.

Lemma configure_no_enet decl file args :
  no_enet (trace (configure decl file args)).
Proof. apply parseArgs_no_enet. Qed.

Lemma count_after_initialize t :
  no_enet t ->
  count_event is_enet_initialize (EnetInitialize :: t) = 1%nat
  /\ count_event is_enet_deinitialize (EnetInitialize :: t) = 0%nat.
Proof. intros [A B]. unfold count_event in *. simpl. lia. Qed.

(** C3. In client-only mode the process exit code is 0 when the client
    engine ends with a normal exit ([Exit] or [Ok]), a disconnect by the
    server or a server timeout, and 1 when it ends with the OpenGL
    initialisation failure, the failed connection or a status the
    [switch] does not list; when [enet_initialize] fails the exit code
    is 1 in every mode. *)
Theorem C3_exit_codes :
  forall (decl : Declarations) (inp : Inputs),
    (enet_initialize inp <> 0 -> snd (main decl inp) = Exited 1)
    /\ (enet_initialize inp = 0 ->
        forall t config,
          configure decl (configFile inp) (argv inp) = (t, Normal config) ->
          launchType config = Client ->
          snd (main decl inp)
          = Exited match clientEngine (engines inp) with
                   | Exit | Ok | ExitServerDisconnect | ExitServerTimeout => 0
                   | GLInitError | CouldNotConnect | OtherStatus _ => 1
                   end).
Proof.
  intros decl inp. split.
  - intros E. now rewrite main_enet_failure.
  - intros E t config C L.
    rewrite (main_after_configure decl inp t config
               match clientEngine (engines inp) with
               | Exit | Ok | ExitServerDisconnect | ExitServerTimeout => 0
               | GLInitError | CouldNotConnect | OtherStatus _ => 1
               end E C); [reflexivity|].
    unfold launchSwitch. rewrite L.
    destruct (clientEngine (engines inp)); reflexivity.
Qed.

Lemma C3_exit_codes_witness :
  snd (main sample_declarations
         (mkInputs ["open-builder"] None 1 quiet_engines)) = Exited 1
  /\ snd (main sample_declarations
            (mkInputs ["open-builder"; "-client"; "now"] None 0
               (mkEngines Exit ExitServerTimeout Exit))) = Exited 0
  /\ snd (main sample_declarations
            (mkInputs ["open-builder"; "-client"; "now"] None 0
               (mkEngines Exit (OtherStatus 99) Exit))) = Exited 1.
Proof.
  split; [|split].
  - apply (C3_exit_codes sample_declarations
             (mkInputs ["open-builder"] None 1 quiet_engines)).
    simpl; lia.
  - apply (proj2 (C3_exit_codes sample_declarations
                    (mkInputs ["open-builder"; "-client"; "now"] None 0
                       (mkEngines Exit ExitServerTimeout Exit)))
             eq_refl [] _ eq_refl eq_refl).
  - apply (proj2 (C3_exit_codes sample_declarations
                    (mkInputs ["open-builder"; "-client"; "now"] None 0
                       (mkEngines Exit (OtherStatus 99) Exit)))
             eq_refl [] _ eq_refl eq_refl).
Defined.

(** C4. The claim is that the network library's global context is
    initialised once and released once on every exit path.  [main] calls
    [enet_initialize] once, but every case of its [switch] returns, so
    the [enet_deinitialize] that follows the [switch] is never reached:
    on no run at all is the context released. *)
Theorem C4_enet_context_never_released :
  forall (decl : Declarations) (inp : Inputs),
    count_event is_enet_initialize (fst (main decl inp)) = 1%nat
    /\ count_event is_enet_deinitialize (fst (main decl inp)) = 0%nat.
Proof.
  intros decl inp.
  destruct (Z.eq_dec (enet_initialize inp) 0) as [E | E].
  - pose proof (configure_no_enet decl (configFile inp) (argv inp)) as Q.
    destruct (configure decl (configFile inp) (argv inp)) as [t r] eqn:C.
    unfold trace in Q; simpl in Q.
    destruct r as [config | code | e].
    + destruct (launchSwitch_returns (engines inp) config) as [code S].
      rewrite (main_after_configure decl inp t config code E C S). simpl.
      apply count_after_initialize, no_enet_app;
        [exact Q | apply launchSwitch_no_enet].
    + rewrite (main_configure_returns decl inp t code E C). simpl.
      now apply count_after_initialize.
    + rewrite (main_configure_aborts decl inp t e E C). simpl.
      now apply count_after_initialize.
  - rewrite (main_enet_failure decl inp E). split; reflexivity.
Qed.

(** C10. In the two multi-instance modes the exit code is the one of
    the client launched by the calling thread: [launchServer] returns
    [EXIT_SUCCESS] whatever the server engine ends with, the threads'
    return values are dropped ([join] yields nothing), and the results
    of [launchBoth] and [launchServerAnd2Players] are the result of
    that one [launchClient], whatever the server and the second client
    end with. *)
Theorem C10_exit_code_is_primary_client :
  forall (e : Engines) (config : Config),
    (forall outcome sc timeout,
        result (launchServer outcome sc timeout) = Normal EXIT_SUCCESS)
    /\ result (launchBoth e config)
       = result (launchClient (clientEngine e) (clientOptions config))
    /\ result (launchServerAnd2Players e config)
       = result (launchClient (clientEngine e) (clientOptions config))
    /\ (forall server second,
          result (launchBoth (mkEngines server (clientEngine e) second) config)
          = result (launchBoth e config)
          /\ result (launchServerAnd2Players
                       (mkEngines server (clientEngine e) second) config)
             = result (launchServerAnd2Players e config))
    /\ (forall decl inp t,
          engines inp = e ->
          enet_initialize inp = 0 ->
          configure decl (configFile inp) (argv inp) = (t, Normal config) ->
          launchType config = TwoPlayer ->
          exists code,
            result (launchClient (clientEngine e) (clientOptions config))
            = Normal code
            /\ snd (main decl inp) = Exited code).
Proof.
  intros e config. split; [reflexivity|].
  split; [apply launchBoth_result|].
  split; [apply launchServerAnd2Players_result|].
  split.
  - intros server second.
    now rewrite !launchBoth_result, !launchServerAnd2Players_result.
  - intros decl inp t <- E C L.
    rewrite launchClient_result. eexists; split; [reflexivity|].
    erewrite main_after_configure; [reflexivity | exact E | exact C |].
    unfold launchSwitch. rewrite L.
    destruct (clientEngine (engines inp)) eqn:S;
      unfold launchServerAnd2Players; rewrite S; reflexivity.
Qed.

Lemma C10_exit_code_witness :
  exists code,
    result (launchClient CouldNotConnect (clientOptions (defaultConfig sample_declarations)))
    = Normal code
    /\ snd (main sample_declarations
              (mkInputs ["open-builder"] None 0
                 (mkEngines GLInitError CouldNotConnect Exit)))
       = Exited code.
Proof.
  apply (proj2 (proj2 (proj2 (proj2
           (C10_exit_code_is_primary_client
              (mkEngines GLInitError CouldNotConnect Exit)
              (defaultConfig sample_declarations)))))
           sample_declarations
           (mkInputs ["open-builder"] None 0
              (mkEngines GLInitError CouldNotConnect Exit))
           [] eq_refl eq_refl eq_refl eq_refl).
Defined.

(** ** Endpoint equality *)

Lemma operator_eq_iff {A} `{Net.IpAddress A} (e1 e2 : Net.Endpoint A) :
  Net.operator_eq e1 e2 = true
  <-> Net.toInteger (Net.address e1) = Net.toInteger (Net.address e2)
      /\ Net.port e1 = Net.port e2.
Proof.
  unfold Net.operator_eq. rewrite andb_true_iff, !Z.eqb_eq. tauto.
Qed.

(** C7. [operator==] on endpoints is reflexive, symmetric and
    transitive; it holds exactly when the two addresses are the same
    integer and the two ports are the same number; and two endpoints
    made from two texts that resolve to the same address, with the same
    port, are equal, whatever the texts are. *)
Theorem C7_endpoint_equality :
  forall (A : Type) (ip : Net.IpAddress A),
    (forall e : Net.Endpoint A, Net.operator_eq e e = true)
    /\ (forall e1 e2 : Net.Endpoint A,
          Net.operator_eq e1 e2 = Net.operator_eq e2 e1)
    /\ (forall e1 e2 e3 : Net.Endpoint A,
          Net.operator_eq e1 e2 = true -> Net.operator_eq e2 e3 = true ->
          Net.operator_eq e1 e3 = true)
    /\ (forall e1 e2 : Net.Endpoint A,
          Net.operator_eq e1 e2 = true
          <-> Net.toInteger (Net.address e1) = Net.toInteger (Net.address e2)
              /\ Net.port e1 = Net.port e2)
    /\ (forall (resolve : string -> A) (text1 text2 : string) (p1 p2 : Z),
          Net.toInteger (resolve text1) = Net.toInteger (resolve text2) ->
          p1 = p2 ->
          Net.operator_eq (Net.mkEndpoint (resolve text1) p1)
                          (Net.mkEndpoint (resolve text2) p2) = true).
Proof.
  intros A ip. split; [|split; [|split; [|split]]].
  - intros e. apply operator_eq_iff. tauto.
  - intros e1 e2. unfold Net.operator_eq.
    now rewrite (Z.eqb_sym (Net.port e1)),
                (Z.eqb_sym (Net.toInteger (Net.address e1))).
  - intros e1 e2 e3 H12 H23.
    apply operator_eq_iff in H12, H23. apply operator_eq_iff.
    destruct H12, H23. split; congruence.
  - intros e1 e2. apply operator_eq_iff.
  - intros resolve text1 text2 p1 p2 Ha Hp. apply operator_eq_iff. now split.
Qed.

Lemma C7_endpoint_equality_witness :
  Net.operator_eq (Net.mkEndpoint (Net.sample_resolve "localhost") 56355)
                  (Net.mkEndpoint (Net.sample_resolve "127.0.0.1") 56355) = true
  /\ Net.operator_eq (Net.mkEndpoint (Net.mkOctets 10 0 0 1) 80)
                     (Net.mkEndpoint (Net.mkOctets 10 0 0 1) 80) = true.
Proof.
  destruct (C7_endpoint_equality Net.Octets Net.Octets_IpAddress)
    as (R & S & T & I & X).
  split.
  - apply (X Net.sample_resolve "localhost" "127.0.0.1" 56355 56355);
      reflexivity.
  - apply (T (Net.mkEndpoint (Net.mkOctets 10 0 0 1) 80)
             (Net.mkEndpoint (Net.mkOctets 10 0 0 1) 80)
             (Net.mkEndpoint (Net.mkOctets 10 0 0 1) 80));
      reflexivity.
Defined.

(** ** Which options [main] hands to [parseArgs] *)

Lemma pairFrom_names l : forall o, In o (pairFrom l) -> In (fst o) l.
Proof.
  induction l as [|a tl IH]; intros o H; simpl in H; [contradiction|].
  destruct tl as [|b tl']; [contradiction|].
  apply in_app_or in H. destruct H as [H | H].
  - destruct (begins_with_dash a); [|contradiction].
    destruct H as [<- | []]. now left.
  - right. now apply IH.
Qed.

Lemma pairFrom_split xs : forall a tl,
  pairFrom (xs ++ a :: tl) = (pairFrom (xs ++ [a]) ++ pairFrom (a :: tl))%list.
Proof.
  induction xs as [|x xs IH]; intros a tl; [reflexivity|].
  change ((x :: xs) ++ a :: tl)%list with (x :: (xs ++ a :: tl))%list.
  change ((x :: xs) ++ [a])%list with (x :: (xs ++ [a]))%list.
  pose proof (IH a tl) as E.
  simpl. destruct xs as [|y xs']; simpl in *.
  - now rewrite <- app_assoc.
  - rewrite E. now rewrite <- app_assoc.
Qed.

(** ** [parseArgs] over a whole option list *)

Lemma parseArgs_app decl a : forall config b,
  parseArgs decl config (a ++ b)
  = (config' <- parseArgs decl config a ;; parseArgs decl config' b).
Proof.
  induction a as [|o a IH]; intros config b; simpl.
  - now destruct (parseArgs decl config b).
  - destruct (parseOption decl config o) as [t [c | z | e]]; simpl;
      try reflexivity.
    rewrite IH.
    destruct (parseArgs decl c a) as [t1 [c1 | z1 | e1]]; simpl;
      try reflexivity.
    destruct (parseArgs decl c1 b) as [t2 r2]. now rewrite app_assoc.
Qed.

Lemma parseOption_other decl config o :
  fst o <> "-server" ->
  parseOption decl config o
  = ([], Normal (if fst o =? "-client" then with_launchType Client config
                 else if fst o =? "-skin"
                      then with_client (set_skinName (snd o)) config
                      else config)).
Proof.
  intros N. unfold parseOption.
  destruct (String.eqb_spec (fst o) "-server"); [contradiction|].
  destruct (fst o =? "-client"); [reflexivity|].
  destruct (fst o =? "-skin"); reflexivity.
Qed.

Lemma parseArgs_no_launch_flag decl args : forall config,
  (forall o, In o args -> fst o <> "-server" /\ fst o <> "-client") ->
  exists config',
    parseArgs decl config args = ([], Normal config')
    /\ launchType config' = launchType config
    /\ serverOptions config' = serverOptions config.
Proof.
  induction args as [|o rest IH]; intros config H; simpl.
  - exists config. repeat split.
  - destruct (H o (or_introl eq_refl)) as [Ns Nc].
    rewrite (parseOption_other decl config o Ns).
    destruct (String.eqb_spec (fst o) "-client"); [contradiction|].
    simpl.
    destruct (IH (if fst o =? "-skin"
                  then with_client (set_skinName (snd o)) config else config))
      as (c' & E & L & S).
    { intros o' Ho'. apply H. now right. }
    rewrite E. exists c'. split; [reflexivity|].
    destruct (fst o =? "-skin"); simpl in *; auto.
Qed.

Lemma parseArgs_stays_client decl args : forall config,
  (forall o, In o args -> fst o <> "-server") ->
  launchType config = Client ->
  exists config',
    parseArgs decl config args = ([], Normal config')
    /\ launchType config' = Client.
Proof.
  induction args as [|o rest IH]; intros config H L; simpl.
  - exists config. now split.
  - rewrite (parseOption_other decl config o (H o (or_introl eq_refl))).
    simpl.
    destruct (IH (if fst o =? "-client" then with_launchType Client config
                  else if fst o =? "-skin"
                       then with_client (set_skinName (snd o)) config
                       else config))
      as (c' & E & L').
    { intros o' Ho'. apply H. now right. }
    { destruct (fst o =? "-client"); [reflexivity|].
      destruct (fst o =? "-skin"); exact L. }
    rewrite E. eauto.
Qed.

Lemma parseArgs_completes decl args : forall config,
  (forall text, In ("-server", text) args ->
                stoi text <> ([], Thrown (out_of_range "stoi"))) ->
  exists t config', parseArgs decl config args = (t, Normal config').
Proof.
  induction args as [|o rest IH]; intros config H; simpl.
  - repeat eexists.
  - assert (exists t c, parseOption decl config o = (t, Normal c)) as (t & c & E).
    { destruct (String.eqb_spec (fst o) "-server") as [S | S].
      - destruct o as [name text]. simpl in S. subst name.
        destruct (stoi_cases text) as [X | [X | [n X]]].
        + destruct (parseOption_server_fallback decl config text (or_introl X))
            as [reason R].
          rewrite R. eauto.
        + exfalso. apply (H text); [now left | exact X].
        + destruct (Z_lt_ge_dec n 2) as [Lo | Lo];
            [|destruct (Z_gt_le_dec n 16) as [Hi | Hi]].
          * destruct (parseOption_server_fallback decl config text)
              as [reason R]; [right; exists n; split; [exact X | lia] |].
            rewrite R. eauto.
          * destruct (parseOption_server_fallback decl config text)
              as [reason R]; [right; exists n; split; [exact X | lia] |].
            rewrite R. eauto.
          * rewrite (parseOption_server_in_range decl config text n X);
              [eauto | lia].
      - rewrite (parseOption_other decl config o S). eauto. }
    rewrite E. simpl.
    destruct (IH c) as (t' & c' & E').
    { intros text Ht. apply H. now right. }
    rewrite E'. eauto.
Qed.

Lemma parseArgs_client_first decl config value rest :
  parseArgs decl config (("-client", value) :: rest)
  = parseArgs decl (with_launchType Client config) rest.
Proof.
  simpl. now destruct (parseArgs decl (with_launchType Client config) rest).
Qed.

(** C5, as stated, fails: an argument list can contain [-client] and
    still not be run client-only.  A [-server] option after it wins
    (the last launch option read decides); a [-client] that is the last
    argument has no successor and is never paired, so the default mode
    stays; and a [-server] count beyond [int] ends the process during
    parsing. *)
Lemma C5_counterexample :
  (In "-client" (tl ["open-builder"; "-client"; "now"; "-server"; "8"])
   /\ exists config,
        configure sample_declarations None
          ["open-builder"; "-client"; "now"; "-server"; "8"]
        = ([], Normal config)
        /\ launchType config = Server)
  /\ (In "-client" (tl ["open-builder"; "-client"])
      /\ exists config,
           configure sample_declarations None ["open-builder"; "-client"]
           = ([], Normal config)
           /\ launchType config = TwoPlayer)
  /\ (In "-client"
        (tl ["open-builder"; "-server"; "99999999999"; "-client"; "now"])
      /\ configure sample_declarations None
           ["open-builder"; "-server"; "99999999999"; "-client"; "now"]
         = ([], Thrown (out_of_range "stoi"))).
Proof.
  split; [|split].
  - split; [simpl; tauto|]. eexists; split; reflexivity.
  - split; [simpl; tauto|]. eexists; split; reflexivity.
  - split; [simpl; tauto|]. reflexivity.
Qed.

(** C5, amended.  When [-client] is followed by another argument, no
    [-server] comes after that [-client], and no [-server] on the line
    is paired with a count beyond the range of [int], parsing completes
    and the launch type is [Client], whatever [config.txt] holds. *)
Theorem C5_client_flag_selects_client :
  forall (decl : Declarations) (file : option string)
         (program value : string) (xs ys : list string),
    ~ In "-server" (value :: ys) ->
    (forall text,
        In ("-server", text)
           (pairArgs (program :: xs ++ "-client" :: value :: ys)) ->
        stoi text <> ([], Thrown (out_of_range "stoi"))) ->
    exists t config,
      configure decl file (program :: xs ++ "-client" :: value :: ys)
      = (t, Normal config)
      /\ launchType config = Client.
Proof.
  intros decl file program value xs ys Hafter Hfit.
  unfold configure, pairArgs in *. simpl tl in *.
  rewrite pairFrom_split in *.
  change (pairFrom ("-client" :: value :: ys))
    with (("-client", value) :: pairFrom (value :: ys)) in *.
  rewrite parseArgs_app.
  destruct (parseArgs_completes decl (pairFrom (xs ++ ["-client"]))
              (loadFromConfigFile file (defaultConfig decl)))
    as (t & c & E).
  { intros text Ht. apply Hfit. apply in_or_app. now left. }
  rewrite E. unfold bind. rewrite parseArgs_client_first.
  destruct (parseArgs_stays_client decl (pairFrom (value :: ys))
              (with_launchType Client c))
    as (c' & E' & L); [|reflexivity|].
  { intros o Ho S. apply Hafter. rewrite <- S. now apply pairFrom_names. }
  rewrite E'. exists (t ++ [])%list, c'. now split.
Qed.

Lemma C5_client_flag_witness :
  exists t config,
    configure sample_declarations None
      ["open-builder"; "-server"; "30"; "-client"; "now"; "-skin"; "red"]
    = (t, Normal config)
    /\ launchType config = Client.
Proof.
  apply (C5_client_flag_selects_client sample_declarations None
           "open-builder" "now" ["-server"; "30"] ["-skin"; "red"]).
  - intros H. simpl in H. intuition discriminate.
  - intros text H. simpl in H.
    destruct H as [H | [H | [H | []]]]; try discriminate H.
    injection H as <-. intros X. vm_compute in X. discriminate X.
Defined.

(** C6. With neither [-server] nor [-client] among the arguments, and
    whatever [config.txt] holds or whether it exists, parsing completes
    silently with the launch type still [TwoPlayer], and [main] (once
    the network library is up) runs the local test mode: it starts one
    server thread whose engine gets a timeout of 20000 ms, that is 20
    seconds, waits a second, starts a second thread that runs a client,
    runs another client itself, and joins both threads. *)
Theorem C6_default_is_two_player_test_mode :
  forall (decl : Declarations) (inp : Inputs),
    ~ In "-server" (tl (argv inp)) ->
    ~ In "-client" (tl (argv inp)) ->
    exists config,
      configure decl (configFile inp) (argv inp) = ([], Normal config)
      /\ launchType config = TwoPlayer
      /\ asMicroseconds (milliseconds 20000) = 20 * 1000000
      /\ (enet_initialize inp = 0 ->
          exists code,
            main decl inp
            = (EnetInitialize
                 :: [ThreadStart "serverThread"
                       (LaunchServerTask (serverOptions config)
                          (milliseconds 20000));
                     SleepFor 1000;
                     ThreadStart "client2"
                       (LaunchClientTask (clientOptions config))]
                 ++ trace (launchClient (clientEngine (engines inp))
                             (clientOptions config))
                 ++ [ThreadJoin "client2"; ThreadJoin "serverThread"],
               Exited code)%list).
Proof.
  intros decl inp Hs Hc.
  destruct (parseArgs_no_launch_flag decl (pairArgs (argv inp))
              (loadFromConfigFile (configFile inp) (defaultConfig decl)))
    as (config & C & L & _).
  { intros o Ho. apply pairFrom_names in Ho.
    split; intros N; rewrite N in Ho; contradiction. }
  pose proof (loadFromConfigFile_launch_settings (configFile inp)
                (defaultConfig decl)) as K.
  unfold launch_settings in K. simpl in K.
  assert (launchType config = TwoPlayer) as T by congruence.
  exists config.
  split; [exact C|]. split; [exact T|]. split; [reflexivity|].
  intros E.
  exists match clientEngine (engines inp) with
         | Exit | Ok | ExitServerDisconnect | ExitServerTimeout => 0
         | GLInitError | CouldNotConnect | OtherStatus _ => 1
         end.
  rewrite (main_after_configure decl inp [] config
             match clientEngine (engines inp) with
             | Exit | Ok | ExitServerDisconnect | ExitServerTimeout => 0
             | GLInitError | CouldNotConnect | OtherStatus _ => 1
             end E C).
  - unfold launchSwitch. rewrite T.
    unfold launchServerAnd2Players.
    destruct (clientEngine (engines inp)); reflexivity.
  - unfold launchSwitch. rewrite T.
    unfold launchServerAnd2Players.
    destruct (clientEngine (engines inp)); reflexivity.
Qed.

Lemma C6_default_witness :
  exists config,
    configure sample_declarations (Some "FOV 90")
      ["open-builder"; "-skin"; "red"]
    = ([], Normal config)
    /\ launchType config = TwoPlayer
    /\ exists code,
         main sample_declarations
           (mkInputs ["open-builder"; "-skin"; "red"] (Some "FOV 90") 0
              quiet_engines)
         = (EnetInitialize
              :: [ThreadStart "serverThread"
                    (LaunchServerTask (serverOptions config)
                       (milliseconds 20000));
                  SleepFor 1000;
                  ThreadStart "client2"
                    (LaunchClientTask (clientOptions config))]
              ++ trace (launchClient Exit (clientOptions config))
              ++ [ThreadJoin "client2"; ThreadJoin "serverThread"],
            Exited code)%list.
Proof.
  destruct (C6_default_is_two_player_test_mode sample_declarations
              (mkInputs ["open-builder"; "-skin"; "red"] (Some "FOV 90") 0
                 quiet_engines))
    as (config & C & T & _ & R).
  - intros H. simpl in H. intuition discriminate.
  - intros H. simpl in H. intuition discriminate.
  - exists config. split; [exact C|]. split; [exact T|].
    apply R. reflexivity.
Defined.

(** ** Text: what reading leaves behind *)

Lemma append_assoc (a b c : string) : (a ++ b) ++ c = a ++ (b ++ c).
Proof. induction a as [|x a IH]; simpl; [reflexivity | now rewrite IH]. Qed.

Lemma append_nil_r (a : string) : a ++ EmptyString = a.
Proof. induction a as [|x a IH]; simpl; [reflexivity | now rewrite IH]. Qed.

Lemma append_length (a b : string) :
  String.length (a ++ b) = (String.length a + String.length b)%nat.
Proof. induction a as [|x a IH]; simpl; [reflexivity | now rewrite IH]. Qed.

Lemma rest_of_refl s : rest_of s s.
Proof. now exists EmptyString. Qed.

Lemma rest_of_trans a b c : rest_of a b -> rest_of b c -> rest_of a c.
Proof.
  intros [r1 ->] [r2 ->]. exists (r1 ++ r2). now rewrite append_assoc.
Qed.

Lemma rest_of_nil s : rest_of s EmptyString.
Proof. exists s. now rewrite append_nil_r. Qed.

Lemma rest_of_tail c s : rest_of (String c s) s.
Proof. now exists (String c EmptyString). Qed.

Lemma rest_of_length whole part :
  rest_of whole part -> (String.length part <= String.length whole)%nat.
Proof. intros [r ->]. rewrite append_length. lia. Qed.

Lemma occurs_rest_of key whole part :
  rest_of whole part -> occurs key part -> occurs key whole.
Proof.
  intros [r ->] (b & a & ->). exists (r ++ b), a. now rewrite append_assoc.
Qed.

Lemma skip_space_rest s : rest_of s (Text.skip_space s).
Proof.
  induction s as [|c s IH]; simpl; [apply rest_of_refl|].
  destruct (Text.isspace c); [|apply rest_of_refl].
  eapply rest_of_trans; [apply rest_of_tail | exact IH].
Qed.

Lemma skip_space_head s c s' :
  Text.skip_space s = String c s' -> Text.isspace c = false.
Proof.
  induction s as [|x s IH]; simpl; [discriminate|].
  destruct (Text.isspace x) eqn:X; [exact IH|].
  intros H. injection H as -> _. exact X.
Qed.

Lemma word_split s : s = fst (IStream.word s) ++ snd (IStream.word s).
Proof.
  induction s as [|c s IH]; simpl; [reflexivity|].
  destruct (Text.isspace c); [reflexivity|].
  destruct (IStream.word s) as [w rest]. simpl in *. now rewrite <- IH.
Qed.

Lemma word_head c s :
  Text.isspace c = false ->
  exists w, fst (IStream.word (String c s)) = String c w.
Proof.
  intros X. simpl. rewrite X. destruct (IStream.word s) as [w rest].
  now exists w.
Qed.

Lemma digits_rest s : forall acc, rest_of s (snd (Text.digits acc s)).
Proof.
  induction s as [|c s IH]; intros acc; simpl; [apply rest_of_refl|].
  destruct (Text.isdigit c); [|apply rest_of_refl].
  eapply rest_of_trans; [apply rest_of_tail | apply IH].
Qed.

Lemma signed_decimal_rest s : rest_of s (snd (Text.signed_decimal s)).
Proof.
  unfold Text.signed_decimal.
  assert (forall (neg : bool) s1, rest_of s s1 ->
            rest_of s
              (snd (if Text.starts_with_digit s1
                    then let '(m, rest) := Text.digits 0 s1 in
                         (Some (if neg then - m else m)%Z, rest)
                    else (None, s1)))) as K.
  { intros neg s1 R. destruct (Text.starts_with_digit s1); [|exact R].
    pose proof (digits_rest s1 0%Z) as D.
    destruct (Text.digits 0 s1) as [m rest]. simpl in *.
    eapply rest_of_trans; eassumption. }
  destruct s as [|c s']; [apply (K false), rest_of_refl|].
  destruct (Ascii.eqb c Text.dash); [apply (K true), rest_of_tail|].
  destruct (Ascii.eqb c Text.plus); [apply (K false), rest_of_tail|].
  apply (K false), rest_of_refl.
Qed.

(** ** Extractions only move forward *)

Lemma sentry_some s b :
  IStream.sentry s = Some b ->
  IStream.failbit s = false
  /\ rest_of (IStream.buf s) b
  /\ exists c b', b = String c b' /\ Text.isspace c = false.
Proof.
  unfold IStream.sentry. destruct (IStream.failbit s); [discriminate|].
  pose proof (skip_space_rest (IStream.buf s)) as R.
  destruct (Text.skip_space (IStream.buf s)) as [|c b'] eqn:K; [discriminate|].
  intros H. injection H as <-. split; [reflexivity|]. split; [exact R|].
  exists c, b'. split; [reflexivity|]. eapply skip_space_head; exact K.
Qed.

Lemma after_failed_sentry_spec s :
  IStream.failbit (IStream.after_failed_sentry s) = true
  /\ rest_of (IStream.buf s) (IStream.buf (IStream.after_failed_sentry s)).
Proof.
  unfold IStream.after_failed_sentry.
  destruct (IStream.failbit s) eqn:F; simpl;
    [split; [exact F | apply rest_of_refl] | split; [reflexivity | apply rest_of_nil]].
Qed.

Lemma get_string_ok s old w s1 :
  IStream.get_string s old = (w, s1) ->
  IStream.failbit s1 = false ->
  (exists read, IStream.buf s = read ++ w ++ IStream.buf s1)
  /\ (String.length (IStream.buf s1) < String.length (IStream.buf s))%nat.
Proof.
  unfold IStream.get_string. intros H F.
  destruct (IStream.sentry s) as [b|] eqn:Se.
  - destruct (sentry_some s b Se) as (_ & [read R] & c & b' & -> & X).
    pose proof (word_split (String c b')) as W.
    destruct (word_head c b' X) as [w' Hw'].
    destruct (IStream.word (String c b')) as [w0 rest]. simpl in *.
    injection H as <- <-. simpl. subst w0.
    split.
    + exists read. now rewrite R, W.
    + rewrite R, W, !append_length. simpl. lia.
  - injection H as _ <-.
    destruct (after_failed_sentry_spec s) as [F' _]. congruence.
Qed.

Lemma get_string_on_failed s old :
  IStream.failbit s = true -> IStream.get_string s old = (old, s).
Proof.
  intros F. unfold IStream.get_string, IStream.sentry,
              IStream.after_failed_sentry.
  now rewrite F.
Qed.

Lemma get_string_rest s old :
  rest_of (IStream.buf s) (IStream.buf (snd (IStream.get_string s old))).
Proof.
  unfold IStream.get_string.
  destruct (IStream.sentry s) as [b|] eqn:Se.
  - destruct (sentry_some s b Se) as (_ & R & _).
    pose proof (word_split b) as W.
    destruct (IStream.word b) as [w rest]. simpl in *.
    eapply rest_of_trans; [exact R|]. now exists w.
  - apply after_failed_sentry_spec.
Qed.

Lemma get_int_rest s old :
  rest_of (IStream.buf s) (IStream.buf (snd (IStream.get_int s old))).
Proof.
  unfold IStream.get_int.
  destruct (IStream.sentry s) as [b|] eqn:Se.
  - destruct (sentry_some s b Se) as (_ & R & _).
    pose proof (signed_decimal_rest b) as D.
    destruct (Text.signed_decimal b) as [[v|] rest]; simpl in D.
    + eapply rest_of_trans; [exact R|].
      destruct (v <? Text.INT_MIN)%Z; [exact D|].
      destruct (v >? Text.INT_MAX)%Z; exact D.
    + eapply rest_of_trans; [exact R | exact D].
  - apply after_failed_sentry_spec.
Qed.

Lemma get_bool_rest s old :
  rest_of (IStream.buf s) (IStream.buf (snd (IStream.get_bool s old))).
Proof.
  unfold IStream.get_bool.
  destruct (IStream.sentry s) as [b|] eqn:Se.
  - destruct (sentry_some s b Se) as (_ & R & _).
    pose proof (signed_decimal_rest b) as D.
    destruct (Text.signed_decimal b) as [[v|] rest]; simpl in D.
    + eapply rest_of_trans; [exact R|].
      destruct (v =? 0)%Z; [exact D|].
      destruct (v =? 1)%Z; exact D.
    + eapply rest_of_trans; [exact R | exact D].
  - apply after_failed_sentry_spec.
Qed.

Lemma loadEntry_rest config line s :
  rest_of (IStream.buf s) (IStream.buf (snd (loadEntry config line s))).
Proof.
  unfold loadEntry.
  repeat match goal with
         | |- context [if (?a =? ?b)%string then _ else _] =>
             destruct (a =? b)%string
         end;
    try apply rest_of_refl;
    match goal with
    | |- context [IStream.get_int ?s ?o] =>
        pose proof (get_int_rest s o); destruct (IStream.get_int s o)
    | |- context [IStream.get_bool ?s ?o] =>
        pose proof (get_bool_rest s o); destruct (IStream.get_bool s o)
    | |- context [IStream.get_string ?s ?o] =>
        pose proof (get_string_rest s o); destruct (IStream.get_string s o)
    end; assumption.
Qed.

(** ** The loop of [loadFromConfigFile] runs to its end *)

Lemma loadLoop_fuel n : forall m config s,
  (String.length (IStream.buf s) < n)%nat ->
  (String.length (IStream.buf s) < m)%nat ->
  loadLoop n config s = loadLoop m config s.
Proof.
  induction n as [|n IH]; intros m config s Hn Hm; [lia|].
  destruct m as [|m]; [lia|]. simpl.
  destruct (IStream.get_string s EmptyString) as [line s1] eqn:G.
  destruct (IStream.failbit s1) eqn:F; [reflexivity|].
  destruct (get_string_ok s EmptyString line s1 G F) as [_ L].
  pose proof (rest_of_length _ _ (loadEntry_rest config line s1)) as L'.
  destruct (loadEntry config line s1) as [config' s2]. simpl in L'.
  apply IH; lia.
Qed.

Lemma loadLoop_ends_failed n : forall config s,
  (String.length (IStream.buf s) < n)%nat ->
  IStream.failbit (snd (loadLoop n config s)) = true.
Proof.
  induction n as [|n IH]; intros config s Hn; [lia|]. simpl.
  destruct (IStream.get_string s EmptyString) as [line s1] eqn:G.
  destruct (IStream.failbit s1) eqn:F; [exact F|].
  destruct (get_string_ok s EmptyString line s1 G F) as [_ L].
  pose proof (rest_of_length _ _ (loadEntry_rest config line s1)) as L'.
  destruct (loadEntry config line s1) as [config' s2]. simpl in L'.
  apply IH; lia.
Qed.

Lemma loadLoop_S fuel config s :
  loadLoop (S fuel) config s
  = let '(line, s1) := IStream.get_string s EmptyString in
    if IStream.failbit s1 then (config, s1)
    else let '(config', s2) := loadEntry config line s1 in
         loadLoop fuel config' s2.
Proof. reflexivity. Qed.

(** One turn of the loop. *)
Lemma run_loadLoop_step config s line s1 config' s2 :
  IStream.get_string s EmptyString = (line, s1) ->
  IStream.failbit s1 = false ->
  loadEntry config line s1 = (config', s2) ->
  run_loadLoop config s = run_loadLoop config' s2.
Proof.
  intros G F E. unfold run_loadLoop.
  rewrite (loadLoop_S (String.length (IStream.buf s))), G, F, E.
  destruct (get_string_ok s EmptyString line s1 G F) as [_ L].
  pose proof (rest_of_length _ _ (loadEntry_rest config line s1)) as L'.
  rewrite E in L'. simpl in L'.
  apply loadLoop_fuel; lia.
Qed.

(** The loop ends as soon as the stream has failed. *)
Lemma run_loadLoop_failed config s :
  IStream.failbit s = true -> run_loadLoop config s = (config, s).
Proof.
  intros F. unfold run_loadLoop.
  now rewrite loadLoop_S, (get_string_on_failed s EmptyString F), F.
Qed.

(** White space in front of the next key changes nothing. *)
Lemma run_loadLoop_leading_space config c text :
  Text.isspace c = true ->
  run_loadLoop config (IStream.mk (String c text) false)
  = run_loadLoop config (IStream.mk text false).
Proof.
  intros X. unfold run_loadLoop. cbn [IStream.buf String.length].
  rewrite (loadLoop_S (S (String.length text))),
          (loadLoop_S (String.length text)).
  assert (IStream.get_string (IStream.mk (String c text) false) EmptyString
          = IStream.get_string (IStream.mk text false) EmptyString) as G.
  { unfold IStream.get_string, IStream.sentry. simpl. now rewrite X. }
  rewrite G.
  destruct (IStream.get_string (IStream.mk text false) EmptyString)
    as [line s1] eqn:G'.
  destruct (IStream.failbit s1) eqn:F; [reflexivity|].
  destruct (get_string_ok _ _ line s1 G' F) as [_ L]. simpl in L.
  pose proof (rest_of_length _ _ (loadEntry_rest config line s1)) as L'.
  destruct (loadEntry config line s1) as [config' s2]. simpl in L'.
  apply loadLoop_fuel; lia.
Qed.

(** ** Which option an entry can change *)

Lemma loadEntry_other_key config line s key :
  line <> key_name key ->
  option_of key (fst (loadEntry config line s)) = option_of key config.
Proof.
  intros N. unfold loadEntry.
  repeat match goal with
         | |- context [if (line =? ?b)%string then _ else _] =>
             destruct (String.eqb_spec line b)
         end;
    try reflexivity;
    subst line;
    (destruct key; try (exfalso; apply N; reflexivity));
    match goal with
    | |- context [IStream.get_int ?s ?o] => destruct (IStream.get_int s o)
    | |- context [IStream.get_bool ?s ?o] => destruct (IStream.get_bool s o)
    | |- context [IStream.get_string ?s ?o] => destruct (IStream.get_string s o)
    end; reflexivity.
Qed.

Lemma key_name_injective k1 k2 : key_name k1 = key_name k2 -> k1 = k2.
Proof. destruct k1, k2; simpl; intros H; try reflexivity; discriminate H. Qed.

Lemma loadLoop_absent_key n : forall config s key,
  ~ occurs (key_name key) (IStream.buf s) ->
  option_of key (fst (loadLoop n config s)) = option_of key config.
Proof.
  induction n as [|n IH]; intros config s key A; [reflexivity|].
  rewrite loadLoop_S.
  destruct (IStream.get_string s EmptyString) as [line s1] eqn:G.
  destruct (IStream.failbit s1) eqn:F; [reflexivity|].
  destruct (get_string_ok s EmptyString line s1 G F) as [[read R] _].
  assert (line <> key_name key) as N.
  { intros ->. apply A. now exists read, (IStream.buf s1). }
  pose proof (loadEntry_other_key config line s1 key N) as O.
  pose proof (loadEntry_rest config line s1) as P.
  destruct (loadEntry config line s1) as [config' s2]. simpl in O, P.
  rewrite IH; [exact O|].
  intros Occ. apply A.
  apply (occurs_rest_of _ _ (IStream.buf s1));
    [exists (read ++ line); now rewrite append_assoc |].
  now apply (occurs_rest_of _ _ (IStream.buf s2)).
Qed.

Lemma get_string_key key c text :
  Text.isspace c = true ->
  IStream.get_string (IStream.mk (key_name key ++ String c text) false)
    EmptyString
  = (key_name key, IStream.mk (String c text) false).
Proof.
  intros X. destruct key; unfold IStream.get_string, IStream.sentry; simpl;
    now rewrite X.
Qed.

Lemma loadEntry_unrecognised config line s :
  recognised line = false -> loadEntry config line s = (config, s).
Proof.
  unfold recognised. simpl. intros H.
  repeat (apply orb_false_iff in H; destruct H as [? H]).
  unfold loadEntry.
  repeat match goal with
         | E : (line =? _) = false |- _ => rewrite E; clear E
         end.
  reflexivity.
Qed.

Lemma word_of_token w c rest :
  no_space w = true -> Text.isspace c = true ->
  IStream.word (w ++ String c rest) = (w, String c rest).
Proof.
  intros W X. induction w as [|x w IH]; simpl.
  - now rewrite X.
  - simpl in W. apply andb_true_iff in W. destruct W as [Nx W].
    apply negb_true_iff in Nx. rewrite Nx, (IH W). reflexivity.
Qed.

Lemma get_string_token w c rest old :
  is_word w = true -> Text.isspace c = true ->
  IStream.get_string (IStream.mk (w ++ String c rest) false) old
  = (w, IStream.mk (String c rest) false).
Proof.
  intros W X. destruct w as [|x w]; [discriminate|].
  unfold is_word in W.
  pose proof (word_of_token (String x w) c rest W X) as K.
  simpl in W. apply andb_true_iff in W. destruct W as [Nx _].
  apply negb_true_iff in Nx.
  unfold IStream.get_string, IStream.sentry.
  cbn [IStream.failbit IStream.buf].
  change (String x w ++ String c rest) with (String x (w ++ String c rest)) in *.
  cbn [Text.skip_space]. rewrite Nx, K. reflexivity.
Qed.

(** A line with an unknown key and a value that is not a key either is
    passed over. *)
Lemma run_loadLoop_unrecognised_line config key value c1 c2 rest :
  is_word key = true -> is_word value = true ->
  recognised key = false -> recognised value = false ->
  Text.isspace c1 = true -> Text.isspace c2 = true ->
  run_loadLoop config
    (IStream.mk (key ++ String c1 (value ++ String c2 rest)) false)
  = run_loadLoop config (IStream.mk rest false).
Proof.
  intros Wk Wv Uk Uv X1 X2.
  rewrite (run_loadLoop_step config _ key _ config _
             (get_string_token key c1 _ EmptyString Wk X1) eq_refl
             (loadEntry_unrecognised config key _ Uk)).
  rewrite (run_loadLoop_leading_space config c1 _ X1).
  rewrite (run_loadLoop_step config _ value _ config _
             (get_string_token value c2 _ EmptyString Wv X2) eq_refl
             (loadEntry_unrecognised config value _ Uv)).
  now apply run_loadLoop_leading_space.
Qed.

(** C8. The file is read as keys followed by values: a line
    [WORLD_SIZE 256] sets the world size to 256 and loading goes on
    with what follows; a line [FOO bar] changes nothing and loading
    goes on with what follows, and so it is for every line made of an
    unknown key and a value that is no key either; an option whose key
    occurs nowhere in the file keeps the value it had, and so does
    every option when the file cannot be opened. *)
Theorem C8_config_file_lines :
  forall (config : Config),
    (forall rest,
        loadFromConfigFile (Some ("WORLD_SIZE 256" ++ Text.nl ++ rest)) config
        = loadFromConfigFile (Some rest)
            (with_server (set_worldSize 256) config))
    /\ loadFromConfigFile (Some "WORLD_SIZE 256") config
       = with_server (set_worldSize 256) config
    /\ (forall rest,
          loadFromConfigFile (Some ("FOO bar" ++ Text.nl ++ rest)) config
          = loadFromConfigFile (Some rest) config)
    /\ (forall key value c1 c2 rest,
          is_word key = true -> is_word value = true ->
          recognised key = false -> recognised value = false ->
          Text.isspace c1 = true -> Text.isspace c2 = true ->
          loadFromConfigFile
            (Some (key ++ String c1 (value ++ String c2 rest))) config
          = loadFromConfigFile (Some rest) config)
    /\ (forall key file,
          ~ occurs (key_name key) file ->
          option_of key (loadFromConfigFile (Some file) config)
          = option_of key config)
    /\ loadFromConfigFile None config = config.
Proof.
  intros config. split; [|split; [|split; [|split; [|split]]]].
  - intros rest. unfold loadFromConfigFile, IStream.open. f_equal.
    rewrite (run_loadLoop_step config _ "WORLD_SIZE"
               (IStream.mk (" 256" ++ Text.nl ++ rest) false)
               (with_server (set_worldSize 256) config)
               (IStream.mk (Text.nl ++ rest) false));
      try reflexivity.
    now apply run_loadLoop_leading_space.
  - reflexivity.
  - intros rest. unfold loadFromConfigFile, IStream.open. f_equal.
    rewrite (run_loadLoop_step config _ "FOO"
               (IStream.mk (" bar" ++ Text.nl ++ rest) false)
               config
               (IStream.mk (" bar" ++ Text.nl ++ rest) false));
      try reflexivity.
    rewrite (run_loadLoop_step config _ "bar"
               (IStream.mk (Text.nl ++ rest) false)
               config
               (IStream.mk (Text.nl ++ rest) false));
      try reflexivity.
    now apply run_loadLoop_leading_space.
  - intros key value c1 c2 rest Wk Wv Uk Uv X1 X2.
    unfold loadFromConfigFile, IStream.open. f_equal.
    now apply run_loadLoop_unrecognised_line.
  - intros key file A. unfold loadFromConfigFile, run_loadLoop.
    now apply loadLoop_absent_key.
  - reflexivity.
Qed.

Lemma starts_with_append key after : starts_with key (key ++ after) = true.
Proof.
  induction key as [|k key IH]; simpl; [reflexivity|].
  now rewrite Ascii.eqb_refl, IH.
Qed.

Lemma occursb_unfold key text :
  occursb key text
  = starts_with key text
    || match text with
       | String _ text' => occursb key text'
       | EmptyString => false
       end.
Proof. destruct text; reflexivity. Qed.

Lemma occursb_complete key text : occurs key text -> occursb key text = true.
Proof.
  intros (before & after & ->).
  induction before as [|b before IH].
  - change (EmptyString ++ key ++ after) with (key ++ after).
    rewrite occursb_unfold. now rewrite starts_with_append.
  - change (String b before ++ key ++ after)
      with (String b (before ++ key ++ after)).
    rewrite occursb_unfold, IH. apply orb_true_r.
Qed.

Lemma occursb_false key text : occursb key text = false -> ~ occurs key text.
Proof.
  intros F O. apply occursb_complete in O. congruence.
Qed.

Lemma C8_config_file_witness :
  option_of WORLD_SIZE
    (loadFromConfigFile
       (Some ("SEED 42" ++ Text.nl ++ "WORLD_SIZE 256" ++ Text.nl ++ "FOV 90"))
       (defaultConfig sample_declarations))
  = Number 256
  /\ option_of WIN_WIDTH
       (loadFromConfigFile
          (Some ("SEED 42" ++ Text.nl ++ "WORLD_SIZE 256" ++ Text.nl ++ "FOV 90"))
          (defaultConfig sample_declarations))
     = Number 1280.
Proof.
  destruct (C8_config_file_lines (defaultConfig sample_declarations))
    as (_ & _ & _ & U & A & _).
  split.
  - transitivity
      (option_of WORLD_SIZE
         (loadFromConfigFile (Some ("WORLD_SIZE 256" ++ Text.nl ++ "FOV 90"))
            (defaultConfig sample_declarations))).
    { apply (f_equal (option_of WORLD_SIZE)).
      exact (U "SEED" "42" " "%char Text.newline
               ("WORLD_SIZE 256" ++ Text.nl ++ "FOV 90")
               eq_refl eq_refl eq_refl eq_refl eq_refl eq_refl). }
    destruct (C8_config_file_lines (defaultConfig sample_declarations))
      as (S & _).
    rewrite (S "FOV 90").
    destruct (C8_config_file_lines
                (with_server (set_worldSize 256)
                   (defaultConfig sample_declarations)))
      as (_ & _ & _ & _ & A' & _).
    rewrite (A' WORLD_SIZE "FOV 90"); [reflexivity|].
    apply occursb_false. reflexivity.
  - apply (A WIN_WIDTH
             ("SEED 42" ++ Text.nl ++ "WORLD_SIZE 256" ++ Text.nl ++ "FOV 90")).
    apply occursb_false. reflexivity.
Defined.

(** C9. When the extraction that follows a recognised key fails (for a
    numeric key: no digit where the number should start, or a number
    outside [int]), the stream is failed, the loop stops there, and
    nothing of what follows in the file is read: the configuration is
    the one right after the failed extraction, whatever the following
    lines are, so every option other than the one of that key keeps the
    value it had before the line. *)
Theorem C9_failed_extraction_ends_loading :
  forall (key : Key) (config : Config) (c : ascii) (text : string),
    Text.isspace c = true ->
    IStream.failbit
      (snd (loadEntry config (key_name key) (IStream.mk (String c text) false)))
    = true ->
    run_loadLoop config (IStream.mk (key_name key ++ String c text) false)
    = loadEntry config (key_name key) (IStream.mk (String c text) false)
    /\ loadFromConfigFile (Some (key_name key ++ String c text)) config
       = fst (loadEntry config (key_name key)
                (IStream.mk (String c text) false))
    /\ forall other,
         other <> key ->
         option_of other
           (loadFromConfigFile (Some (key_name key ++ String c text)) config)
         = option_of other config.
Proof.
  intros key config c text X F.
  assert (run_loadLoop config
            (IStream.mk (key_name key ++ String c text) false)
          = loadEntry config (key_name key)
              (IStream.mk (String c text) false)) as R.
  { destruct (loadEntry config (key_name key)
                (IStream.mk (String c text) false)) as [config' s2] eqn:E.
    rewrite (run_loadLoop_step config _ (key_name key)
               (IStream.mk (String c text) false) config' s2
               (get_string_key key c text X) eq_refl E).
    now apply run_loadLoop_failed. }
  split; [exact R|].
  assert (loadFromConfigFile (Some (key_name key ++ String c text)) config
          = fst (loadEntry config (key_name key)
                   (IStream.mk (String c text) false))) as L.
  { unfold loadFromConfigFile, IStream.open. now rewrite R. }
  split; [exact L|].
  intros other N. rewrite L. apply loadEntry_other_key.
  intros K. apply N. symmetry. now apply key_name_injective.
Qed.

Lemma C9_failed_extraction_witness :
  loadFromConfigFile
    (Some ("WIN_WIDTH wide" ++ Text.nl ++ "WORLD_SIZE 256" ++ Text.nl))
    (defaultConfig sample_declarations)
  = with_client (set_windowWidth 0) (defaultConfig sample_declarations)
  /\ option_of WORLD_SIZE
       (loadFromConfigFile
          (Some ("WIN_WIDTH wide" ++ Text.nl ++ "WORLD_SIZE 256" ++ Text.nl))
          (defaultConfig sample_declarations))
     = Number 16.
Proof.
  destruct (C9_failed_extraction_ends_loading WIN_WIDTH
              (defaultConfig sample_declarations) " "%char
              ("wide" ++ Text.nl ++ "WORLD_SIZE 256" ++ Text.nl)
              eq_refl eq_refl) as (_ & L & O).
  split.
  - exact L.
  - apply (O WORLD_SIZE). discriminate.
Defined.

(* ================================================================== *)
(** * Further properties of the launcher *)

(** ** The pairing loop of [main] *)

Lemma pairFrom_spec l : forall a b,
  In (a, b) (pairFrom l)
  <-> exists i, nth_error l i = Some a /\ nth_error l (S i) = Some b
                /\ begins_with_dash a = true.
Proof.
  induction l as [|x tl IH]; intros a b.
  - simpl. split; [contradiction|]. intros (i & H & _). now destruct i.
  - destruct tl as [|y tl'].
    + simpl. split; [contradiction|].
      intros (i & _ & H & _). destruct i as [|i]; [discriminate|].
      now destruct i.
    + change (pairFrom (x :: y :: tl'))
        with ((if begins_with_dash x then [(x, y)] else [])
                ++ pairFrom (y :: tl'))%list.
      rewrite in_app_iff, IH. split.
      * intros [H | (i & Ha & Hb & D)].
        -- destruct (begins_with_dash x) eqn:D; [|contradiction].
           destruct H as [H | []]. injection H as <- <-.
           exists 0%nat. now repeat split.
        -- exists (S i). now repeat split.
      * intros (i & Ha & Hb & D). destruct i as [|i].
        -- left. simpl in Ha, Hb. injection Ha as ->. injection Hb as ->.
           rewrite D. now left.
        -- right. exists i. now repeat split.
Qed.

Lemma pairFrom_length l : (List.length (pairFrom l) <= pred (List.length l))%nat.
Proof.
  induction l as [|x tl IH]; [simpl; lia|].
  destruct tl as [|y tl']; [simpl; lia|].
  change (pairFrom (x :: y :: tl'))
    with ((if begins_with_dash x then [(x, y)] else [])
            ++ pairFrom (y :: tl'))%list.
  rewrite length_app. simpl in *.
  destruct (begins_with_dash x); simpl; lia.
Qed.

(** X1. [main] hands [parseArgs] exactly the pairs [(argv[i],
    argv[i+1])] with [i >= 1] and [argv[i]] beginning with a dash: the
    program name is never an option, the last argument is never an
    option name, and an argument can be the value of one option and the
    name of the next.  There are at most [argc - 2] options. *)
Theorem X1_pairArgs_characterised :
  forall (argv : list string),
    (forall a b,
        In (a, b) (pairArgs argv)
        <-> exists i, nth_error argv (S i) = Some a
                      /\ nth_error argv (S (S i)) = Some b
                      /\ begins_with_dash a = true)
    /\ (List.length (pairArgs argv) <= List.length argv - 2)%nat.
Proof.
  intros argv. split.
  - intros a b. unfold pairArgs. rewrite pairFrom_spec.
    destruct argv as [|program rest]; simpl; [|reflexivity].
    split; intros (i & H & _); now destruct i.
  - unfold pairArgs. pose proof (pairFrom_length (tl argv)) as L.
    destruct argv as [|program rest]; simpl in *; lia.
Qed.

Lemma X1_pairArgs_witness :
  In ("-skin", "-client") (pairArgs ["open-builder"; "-skin"; "-client"; "now"])
  /\ In ("-client", "now") (pairArgs ["open-builder"; "-skin"; "-client"; "now"]).
Proof.
  split.
  - apply (proj2 (proj1 (X1_pairArgs_characterised
                           ["open-builder"; "-skin"; "-client"; "now"])
                    "-skin" "-client")).
    exists 0%nat. repeat split; reflexivity.
  - apply (proj2 (proj1 (X1_pairArgs_characterised
                           ["open-builder"; "-skin"; "-client"; "now"])
                    "-client" "now")).
    exists 1%nat. repeat split; reflexivity.
Defined.

(** ** One option at a time *)

Lemma overflows_spec text :
  overflows text = true <-> stoi text = ([], Thrown (out_of_range "stoi")).
Proof.
  unfold overflows.
  destruct (stoi_cases text) as [E | [E | [n E]]]; rewrite E; simpl;
    split; congruence.
Qed.

(** What [parseOption] does, by the kind of option. *)
Lemma parseOption_server decl config text :
  parseOption decl config ("-server", text)
  = if overflows text then ([], Thrown (out_of_range "stoi"))
    else if falls_back text
         then ([Stdout (fallback_notice
                          match result (stoi text) with
                          | Normal n => if (n <? 2)%Z then below_minimum decl
                                        else above_maximum decl
                          | _ => "stoi"
                          end)],
               Normal (with_server (set_maxConnections 4)
                         (with_launchType Server config)))
         else ([], Normal (with_launchType Server config)).
Proof.
  unfold overflows, falls_back, parseOption. simpl.
  destruct (stoi_cases text) as [E | [E | [n E]]]; rewrite E; simpl;
    try reflexivity.
  destruct (n <? 2)%Z; simpl; [reflexivity|].
  destruct (n >? 16)%Z; reflexivity.
Qed.

Lemma parseOption_cases decl config o :
  (is_option "-server" o = true /\ overflows (snd o) = true
   /\ parseOption decl config o = ([], Thrown (out_of_range "stoi")))
  \/ (is_option "-server" o && overflows (snd o) = false
      /\ exists t config',
           parseOption decl config o = (t, Normal config')
           /\ Forall (fun e => is_stdout e = true) t
           /\ List.length t
              = (if is_option "-server" o && falls_back (snd o)
                 then 1 else 0)%nat
           /\ launchType config'
              = (if is_option "-server" o then Server
                 else if is_option "-client" o then Client
                      else launchType config)
           /\ maxConnections (serverOptions config')
              = (if is_option "-server" o && falls_back (snd o) then 4
                 else maxConnections (serverOptions config))
           /\ skinName (clientOptions config')
              = (if is_option "-skin" o then snd o
                 else skinName (clientOptions config))
           /\ forall key, key <> SKIN ->
                          option_of key config' = option_of key config).
Proof.
  assert (forall (P : Event -> Prop), Forall P []) as Fnil by constructor.
  destruct o as [name text]. unfold is_option. simpl.
  destruct (String.eqb_spec name "-server") as [-> | N].
  - rewrite parseOption_server. simpl.
    destruct (overflows text); [left; now repeat split|].
    right. split; [reflexivity|].
    destruct (falls_back text); eexists _, _; (split; [reflexivity|]);
      repeat split; try reflexivity; try apply Fnil;
      try (now repeat constructor);
      intros key K; destruct key; try reflexivity; now elim K.
  - right. split; [reflexivity|].
    rewrite (parseOption_other decl config (name, text) N). simpl.
    eexists _, _. split; [reflexivity|].
    destruct (String.eqb_spec name "-client") as [-> | C]; simpl;
      [|destruct (name =? "-skin"); simpl];
      repeat split; try reflexivity; try apply Fnil;
      intros key K; destruct key; try reflexivity; now elim K.
Qed.

(** ** A whole option list *)

Lemma parseArgs_cons decl config o rest t c :
  parseOption decl config o = (t, Normal c) ->
  parseArgs decl config (o :: rest)
  = ((t ++ trace (parseArgs decl c rest))%list, result (parseArgs decl c rest)).
Proof.
  intros E. simpl. rewrite E. simpl.
  now destruct (parseArgs decl c rest).
Qed.

Lemma parseArgs_cases decl args : forall config,
  (existsb aborts_on args = true
   /\ exists t,
        parseArgs decl config args = (t, Thrown (out_of_range "stoi"))
        /\ Forall (fun e => is_stdout e = true) t)
  \/ (existsb aborts_on args = false
      /\ exists t config',
           parseArgs decl config args = (t, Normal config')
           /\ Forall (fun e => is_stdout e = true) t
           /\ List.length t = List.length (filter notice_on args)
           /\ launchType config'
              = fold_left launch_choice args (launchType config)
           /\ maxConnections (serverOptions config')
              = (if existsb notice_on args then 4
                 else maxConnections (serverOptions config))
           /\ skinName (clientOptions config')
              = fold_left skin_choice args (skinName (clientOptions config))
           /\ forall key, key <> SKIN ->
                          option_of key config' = option_of key config).
Proof.
  induction args as [|o rest IH]; intros config.
  - right. split; [reflexivity|]. exists [], config.
    repeat split; try reflexivity. constructor.
  - destruct (parseOption_cases decl config o)
      as [(S & O & E) | (A & t & c & E & F & L & Ty & Mx & Sk & Fr)].
    + left. split.
      * simpl. unfold aborts_on at 1. now rewrite S, O.
      * exists []. split; [|constructor]. simpl. now rewrite E.
    + rewrite (parseArgs_cons decl config o rest t c E).
      change (existsb aborts_on (o :: rest))
        with (aborts_on o || existsb aborts_on rest).
      change (is_option "-server" o && overflows (snd o))
        with (aborts_on o) in A.
      change (is_option "-server" o && falls_back (snd o))
        with (notice_on o) in L, Mx.
      rewrite A. simpl orb.
      destruct (IH c)
        as [(X & t' & E' & F')
           | (X & t' & c' & E' & F' & L' & Ty' & Mx' & Sk' & Fr')];
        rewrite E'; unfold trace, result; simpl fst; simpl snd.
      * left. split; [exact X|]. eexists. split; [reflexivity|].
        apply Forall_app. now split.
      * right. split; [exact X|]. exists (t ++ t')%list, c'.
        split; [reflexivity|].
        split; [apply Forall_app; now split|].
        change (filter notice_on (o :: rest))
          with (if notice_on o then o :: filter notice_on rest
                else filter notice_on rest).
        change (existsb notice_on (o :: rest))
          with (notice_on o || existsb notice_on rest).
        split.
        { rewrite length_app, L, L'. destruct (notice_on o); simpl; lia. }
        split.
        { rewrite Ty', Ty. reflexivity. }
        split.
        { rewrite Mx', Mx.
          destruct (notice_on o); simpl;
            destruct (existsb notice_on rest); reflexivity. }
        split.
        { rewrite Sk', Sk. reflexivity. }
        intros key K. now rewrite Fr', Fr.
Qed.

Lemma fold_left_unchanged {A B} (f : A -> B -> A) (l : list B) : forall init,
  (forall o, In o l -> forall a, f a o = a) -> fold_left f l init = init.
Proof.
  induction l as [|o l IH]; intros init H; simpl; [reflexivity|].
  rewrite (H o (or_introl eq_refl)). apply IH. intros o' Ho'. apply H. now right.
Qed.

Lemma fold_left_last {A B} (f : A -> B -> A) (pre post : list B) o init :
  (forall o', In o' post -> forall a, f a o' = a) ->
  fold_left f (pre ++ o :: post) init = f (fold_left f pre init) o.
Proof.
  intros H. rewrite fold_left_app. simpl. now apply fold_left_unchanged.
Qed.

Lemma aborts_on_exists args :
  existsb aborts_on args = true
  <-> exists text, In ("-server", text) args /\ overflows text = true.
Proof.
  rewrite existsb_exists. unfold aborts_on, is_option. split.
  - intros ([name text] & I & H). simpl in H.
    apply andb_true_iff in H. destruct H as [N O].
    apply String.eqb_eq in N. subst name. now exists text.
  - intros (text & I & O). exists ("-server", text). split; [exact I|].
    simpl. now rewrite O.
Qed.

(** X2. [parseArgs] ends in an exception exactly when some [-server]
    option carries a count that does not fit [int]; the exception is
    then [std::out_of_range], which nothing up to [main] catches.
    Every other option list is parsed to the end. *)
Theorem X2_parseArgs_throws_iff_count_overflows :
  forall (decl : Declarations) (config : Config)
         (args : list (string * string)),
    ((exists t e, parseArgs decl config args = (t, Thrown e))
     <-> exists text, In ("-server", text) args /\ overflows text = true)
    /\ (forall t e, parseArgs decl config args = (t, Thrown e) ->
                    e = out_of_range "stoi")
    /\ ((forall text, In ("-server", text) args -> overflows text = false) ->
        exists t config', parseArgs decl config args = (t, Normal config')).
Proof.
  intros decl config args.
  destruct (parseArgs_cases decl args config)
    as [(X & t & E & _) | (X & t & c & E & _)].
  - split; [|split].
    + split; [intros _; now apply aborts_on_exists | intros _; eauto].
    + intros t' e E'. rewrite E in E'. now injection E' as _ <-.
    + intros H. apply aborts_on_exists in X. destruct X as (text & I & O).
      rewrite (H text I) in O. discriminate.
  - split; [|split].
    + split.
      * intros (t' & e & E'). rewrite E in E'. discriminate.
      * intros H. apply aborts_on_exists in H. congruence.
    + intros t' e E'. rewrite E in E'. discriminate.
    + intros _. eauto.
Qed.

Lemma X2_parseArgs_throws_witness :
  (exists t e,
      parseArgs sample_declarations (defaultConfig sample_declarations)
        [("-skin", "red"); ("-server", "1"); ("-server", "4294967296")]
      = (t, Thrown e))
  /\ exists t config',
       parseArgs sample_declarations (defaultConfig sample_declarations)
         [("-skin", "red"); ("-server", "1")]
       = (t, Normal config').
Proof.
  split.
  - apply (proj2 (proj1 (X2_parseArgs_throws_iff_count_overflows
                           sample_declarations
                           (defaultConfig sample_declarations)
                           [("-skin", "red"); ("-server", "1");
                            ("-server", "4294967296")]))).
    exists "4294967296". split; [simpl; tauto | reflexivity].
  - apply (proj2 (proj2 (X2_parseArgs_throws_iff_count_overflows
                           sample_declarations
                           (defaultConfig sample_declarations)
                           [("-skin", "red"); ("-server", "1")]))).
    intros text H. simpl in H.
    destruct H as [H | [H | []]]; [discriminate H|].
    injection H as <-. reflexivity.
Defined.

(** X3. The command line reaches three settings only: whenever
    [parseArgs] completes, every option a configuration key can set,
    other than the skin name, is as it was before parsing; so on
    everything but the skin the values in [config.txt] stand. *)
Theorem X3_parseArgs_leaves_file_options :
  forall (decl : Declarations) (file : option string) (argv : list string)
         (t : list Event) (config : Config),
    configure decl file argv = (t, Normal config) ->
    forall key, key <> SKIN ->
      option_of key config
      = option_of key (loadFromConfigFile file (defaultConfig decl)).
Proof.
  intros decl file argv t config E key K. unfold configure in E.
  destruct (parseArgs_cases decl (pairArgs argv)
              (loadFromConfigFile file (defaultConfig decl)))
    as [(_ & t' & E' & _) | (_ & t' & c & E' & _ & _ & _ & _ & _ & Fr)];
    rewrite E' in E; [discriminate|].
  injection E as _ <-. now apply Fr.
Qed.

Lemma X3_parseArgs_leaves_file_options_witness :
  exists config,
    configure sample_declarations (Some "FOV 90 WORLD_SIZE 32 SKIN blue")
      ["open-builder"; "-server"; "1"; "-skin"; "red"; "-client"; "now"]
    = ([Stdout (fallback_notice (below_minimum sample_declarations))],
       Normal config)
    /\ option_of FOV config = Number 90
    /\ option_of WORLD_SIZE config = Number 32
    /\ option_of SKIN config = Name "red".
Proof.
  eexists. split; [reflexivity|]. split; [|split].
  - rewrite (X3_parseArgs_leaves_file_options sample_declarations
               (Some "FOV 90 WORLD_SIZE 32 SKIN blue")
               ["open-builder"; "-server"; "1"; "-skin"; "red"; "-client"; "now"]
               _ _ eq_refl FOV); [reflexivity | discriminate].
  - reflexivity.
  - reflexivity.
Defined.

Lemma configure_cases decl file argv :
  (existsb aborts_on (pairArgs argv) = true
   /\ exists t,
        configure decl file argv = (t, Thrown (out_of_range "stoi"))
        /\ Forall (fun e => is_stdout e = true) t)
  \/ (existsb aborts_on (pairArgs argv) = false
      /\ exists t config,
           configure decl file argv = (t, Normal config)
           /\ Forall (fun e => is_stdout e = true) t
           /\ List.length t = List.length (filter notice_on (pairArgs argv))
           /\ launchType config
              = fold_left launch_choice (pairArgs argv) TwoPlayer
           /\ maxConnections (serverOptions config)
              = (if existsb notice_on (pairArgs argv) then 4
                 else maxConnections (defaultServerOptions decl))
           /\ skinName (clientOptions config)
              = fold_left skin_choice (pairArgs argv)
                  (skinName (clientOptions
                               (loadFromConfigFile file (defaultConfig decl))))).
Proof.
  pose proof (loadFromConfigFile_launch_settings file (defaultConfig decl)) as K.
  unfold launch_settings in K. simpl in K. injection K as KT KM.
  unfold configure.
  destruct (parseArgs_cases decl (pairArgs argv)
              (loadFromConfigFile file (defaultConfig decl)))
    as [(X & t & E & F) | (X & t & c & E & F & L & Ty & Mx & Sk & _)].
  - left. split; [exact X|]. now exists t.
  - right. split; [exact X|]. exists t, c.
    rewrite KT in Ty. rewrite KM in Mx. now repeat split.
Qed.

(** X4. When no [-server] count overflows [int], parsing completes and
    the server's [maxConnections] is 4 if some [-server] option on the
    line has a count that is not a number or lies outside 2..16, and
    the initial value of [ServerConfig] otherwise; nothing else, no
    configuration key either, can set it.  One notice is printed on
    standard output for each such option, and nothing else is
    printed. *)
Theorem X4_max_connections_after_parsing :
  forall (decl : Declarations) (file : option string) (argv : list string),
    existsb aborts_on (pairArgs argv) = false ->
    exists t config,
      configure decl file argv = (t, Normal config)
      /\ maxConnections (serverOptions config)
         = (if existsb notice_on (pairArgs argv) then 4
            else maxConnections (defaultServerOptions decl))
      /\ Forall (fun e => is_stdout e = true) t
      /\ List.length t = List.length (filter notice_on (pairArgs argv)).
Proof.
  intros decl file argv A.
  destruct (configure_cases decl file argv)
    as [(X & _) | (_ & t & c & E & F & L & _ & Mx & _)]; [congruence|].
  exists t, c. now repeat split.
Qed.

Lemma X4_max_connections_witness :
  exists t config,
    configure (mkDeclarations 2 16 (mkServerConfig 10 16 8)
                 (defaultClientOptions sample_declarations))
      None ["open-builder"; "-server"; "12"; "-server"; "many"; "-server"; "40"]
    = (t, Normal config)
    /\ maxConnections (serverOptions config) = 4
    /\ Forall (fun e => is_stdout e = true) t
    /\ List.length t = 2%nat.
Proof.
  apply (X4_max_connections_after_parsing
           (mkDeclarations 2 16 (mkServerConfig 10 16 8)
              (defaultClientOptions sample_declarations))
           None
           ["open-builder"; "-server"; "12"; "-server"; "many"; "-server"; "40"]).
  reflexivity.
Defined.

(** X5. The last launch option read decides: when parsing completes and
    the last [-server] or [-client] among the paired options is
    [-server], the launch type is [Server]; when it is [-client], the
    launch type is [Client]; whatever comes before it and whatever
    [config.txt] holds. *)
Theorem X5_last_launch_option_decides :
  forall (decl : Declarations) (file : option string) (argv : list string)
         (before after : list (string * string)) (o : string * string),
    pairArgs argv = (before ++ o :: after)%list ->
    is_option "-server" o || is_option "-client" o = true ->
    (forall o', In o' after ->
                is_option "-server" o' || is_option "-client" o' = false) ->
    existsb aborts_on (pairArgs argv) = false ->
    exists t config,
      configure decl file argv = (t, Normal config)
      /\ launchType config
         = if is_option "-server" o then Server else Client.
Proof.
  intros decl file argv before after o P Fl Af A.
  destruct (configure_cases decl file argv)
    as [(X & _) | (_ & t & c & E & _ & _ & Ty & _)]; [congruence|].
  exists t, c. split; [exact E|]. rewrite Ty, P.
  rewrite fold_left_last.
  - unfold launch_choice.
    destruct (is_option "-server" o); [reflexivity|].
    simpl in Fl. now rewrite Fl.
  - intros o' I a. specialize (Af o' I). apply orb_false_iff in Af.
    destruct Af as [S C]. unfold launch_choice. now rewrite S, C.
Qed.

Lemma X5_last_launch_option_witness :
  exists t config,
    configure sample_declarations None
      ["open-builder"; "-client"; "now"; "-server"; "8"; "-skin"; "red"]
    = (t, Normal config)
    /\ launchType config = Server.
Proof.
  apply (X5_last_launch_option_decides sample_declarations None
           ["open-builder"; "-client"; "now"; "-server"; "8"; "-skin"; "red"]
           [("-client", "now")] [("-skin", "red")] ("-server", "8")).
  - reflexivity.
  - reflexivity.
  - intros o' H. simpl in H. destruct H as [<- | []]. reflexivity.
  - reflexivity.
Defined.

(** ** Whole runs of [main] *)

Lemma main_cases decl inp :
  (enet_initialize inp <> 0
   /\ main decl inp
      = ([EnetInitialize;
          Stderr ("Engine exited with error: " ++ Text.quote
                    ++ "Failed to initialise enet" ++ Text.quote ++ "."
                    ++ Text.nl)],
         Exited 1))
  \/ (enet_initialize inp = 0
      /\ existsb aborts_on (pairArgs (argv inp)) = true
      /\ exists t,
           Forall (fun e => is_stdout e = true) t
           /\ main decl inp
              = (EnetInitialize :: t, Terminated (out_of_range "stoi")))
  \/ (enet_initialize inp = 0
      /\ existsb aborts_on (pairArgs (argv inp)) = false
      /\ exists t config code,
           configure decl (configFile inp) (argv inp) = (t, Normal config)
           /\ Forall (fun e => is_stdout e = true) t
           /\ launchType config
              = fold_left launch_choice (pairArgs (argv inp)) TwoPlayer
           /\ result (launchSwitch (engines inp) config) = Returned code
           /\ main decl inp
              = ((EnetInitialize :: t
                    ++ trace (launchSwitch (engines inp) config))%list,
                 Exited code)).
Proof.
  destruct (Z.eq_dec (enet_initialize inp) 0) as [E | E].
  - right.
    destruct (configure_cases decl (configFile inp) (argv inp))
      as [(X & t & C & F) | (X & t & c & C & F & _ & Ty & _)].
    + left. split; [exact E|]. split; [exact X|]. exists t.
      split; [exact F|]. now apply main_configure_aborts.
    + right. split; [exact E|]. split; [exact X|].
      destruct (launchSwitch_returns (engines inp) c) as [code S].
      exists t, c, code. repeat split; try assumption.
      now apply main_after_configure.
  - left. split; [exact E|]. now apply main_enet_failure.
Qed.

Lemma fold_launch_choice_range args : forall ty,
  fold_left launch_choice args ty = ty
  \/ fold_left launch_choice args ty = Server
  \/ fold_left launch_choice args ty = Client.
Proof.
  induction args as [|o rest IH]; intros ty; simpl; [now left|].
  destruct (IH (launch_choice ty o)) as [H | H]; [|right; exact H].
  rewrite H. unfold launch_choice.
  destruct (is_option "-server" o); [right; now left|].
  destruct (is_option "-client" o); [right; now right | now left].
Qed.

Lemma launchSwitch_exit e config :
  result (launchSwitch e config) = Returned 0
  \/ result (launchSwitch e config) = Returned 1.
Proof.
  unfold launchSwitch.
  destruct (launchType config); [left; reflexivity | | |];
    unfold launchBoth, launchServerAnd2Players;
    destruct (clientEngine e); (left; reflexivity) || (right; reflexivity).
Qed.

(** X6. A whole run of [main] ends in one of three ways: exit code 0,
    exit code 1, or termination by the [std::out_of_range] that
    [std::stoi] throws; and it is terminated exactly when
    [enet_initialize] succeeded and some paired [-server] option has a
    count that does not fit [int], in which case no engine is run and
    no thread is started. *)
Theorem X6_main_outcomes :
  forall (decl : Declarations) (inp : Inputs),
    (snd (main decl inp) = Exited 0
     \/ snd (main decl inp) = Exited 1
     \/ snd (main decl inp) = Terminated (out_of_range "stoi"))
    /\ (snd (main decl inp) = Terminated (out_of_range "stoi")
        <-> enet_initialize inp = 0
            /\ exists text, In ("-server", text) (pairArgs (argv inp))
                            /\ overflows text = true)
    /\ (snd (main decl inp) = Terminated (out_of_range "stoi") ->
        exists notices,
          fst (main decl inp) = EnetInitialize :: notices
          /\ Forall (fun e => is_stdout e = true) notices).
Proof.
  intros decl inp.
  destruct (main_cases decl inp)
    as [(E & M) | [(E & X & t & F & M) | (E & X & t & c & code & _ & _ & _ & S & M)]];
    rewrite M; simpl.
  - split; [now right; left|]. split; [|discriminate].
    split; [discriminate | intros [E' _]; contradiction].
  - split; [now right; right|]. split; [|intros _; now exists t].
    split; [intros _ | reflexivity].
    split; [exact E | now apply aborts_on_exists].
  - split.
    + destruct (launchSwitch_exit (engines inp) c) as [S' | S'];
        rewrite S' in S; injection S as <-; [now left | now right; left].
    + split; [|discriminate]. split; [discriminate|].
      intros [_ H]. apply aborts_on_exists in H. congruence.
Qed.

Lemma X6_main_outcomes_witness :
  snd (main sample_declarations
         (mkInputs ["open-builder"; "-server"; "0"; "-server"; "4294967296"]
            None 0 quiet_engines))
  = Terminated (out_of_range "stoi")
  /\ exists notices,
       fst (main sample_declarations
              (mkInputs ["open-builder"; "-server"; "0"; "-server"; "4294967296"]
                 None 0 quiet_engines))
       = EnetInitialize :: notices
       /\ Forall (fun e => is_stdout e = true) notices.
Proof.
  assert (snd (main sample_declarations
                 (mkInputs
                    ["open-builder"; "-server"; "0"; "-server"; "4294967296"]
                    None 0 quiet_engines))
          = Terminated (out_of_range "stoi")) as T.
  { apply (proj2 (proj1 (proj2 (X6_main_outcomes sample_declarations
             (mkInputs
                ["open-builder"; "-server"; "0"; "-server"; "4294967296"]
                None 0 quiet_engines))))).
    split; [reflexivity|]. exists "4294967296".
    split; [simpl; tauto | reflexivity]. }
  split; [exact T|].
  apply (proj2 (proj2 (X6_main_outcomes sample_declarations
           (mkInputs
              ["open-builder"; "-server"; "0"; "-server"; "4294967296"]
              None 0 quiet_engines))) T).
Defined.

Lemma stdout_only t :
  Forall (fun e => is_stdout e = true) t ->
  existsb is_stderr t = false
  /\ existsb is_engine_run t = false
  /\ started t = []
  /\ joined t = []
  /\ Forall (fun e => only_in_launchBoth e = false) t.
Proof.
  induction 1 as [|e t He _ (A & B & C & D & F)].
  - repeat split; constructor.
  - destruct e; try discriminate He. simpl.
    repeat split; try assumption. now constructor.
Qed.

Lemma started_app t1 t2 : started (t1 ++ t2) = (started t1 ++ started t2)%list.
Proof. apply flat_map_app. Qed.

Lemma joined_app t1 t2 : joined (t1 ++ t2) = (joined t1 ++ joined t2)%list.
Proof. apply flat_map_app. Qed.

(** X7. [main] never runs [launchBoth]: no command line and no
    [config.txt] make the launch type [Both], so in no run does [main]
    pause for 6.5 s or start a server thread with the 5 s timeout. *)
Theorem X7_launchBoth_is_unreachable :
  forall (decl : Declarations) (inp : Inputs),
    (forall t config,
        configure decl (configFile inp) (argv inp) = (t, Normal config) ->
        launchType config <> Both)
    /\ Forall (fun e => only_in_launchBoth e = false) (fst (main decl inp)).
Proof.
  intros decl inp.
  assert (forall t config,
             configure decl (configFile inp) (argv inp) = (t, Normal config) ->
             launchType config <> Both) as NB.
  { intros t config C.
    destruct (configure_cases decl (configFile inp) (argv inp))
      as [(_ & t' & C' & _) | (_ & t' & c & C' & _ & _ & Ty & _)];
      rewrite C' in C; [discriminate|].
    injection C as _ <-. rewrite Ty.
    destruct (fold_launch_choice_range (pairArgs (argv inp)) TwoPlayer)
      as [H | [H | H]]; rewrite H; discriminate. }
  split; [exact NB|].
  destruct (main_cases decl inp)
    as [(E & M) | [(E & X & t & F & M) | (E & X & t & c & code & C & F & _ & S & M)]];
    rewrite M; simpl.
  - now repeat constructor.
  - constructor; [reflexivity|]. now apply stdout_only.
  - constructor; [reflexivity|]. apply Forall_app. split.
    + now apply stdout_only.
    + specialize (NB t c C). unfold launchSwitch.
      destruct (launchType c); [| | contradiction |];
        unfold launchServerAnd2Players;
        try destruct (clientEngine (engines inp));
        now repeat constructor.
Qed.

Lemma X7_launchBoth_witness :
  exists config,
    configure sample_declarations (Some "FULLSCREEN 1")
      ["open-builder"; "-both"; "please"]
    = ([], Normal config)
    /\ launchType config <> Both.
Proof.
  eexists. split; [reflexivity|].
  apply (proj1 (X7_launchBoth_is_unreachable sample_declarations
                  (mkInputs ["open-builder"; "-both"; "please"]
                     (Some "FULLSCREEN 1") 0 quiet_engines))
           [] _ eq_refl).
Defined.

(** X8. In server-only mode the process runs the server engine once,
    on the calling thread, with the parsed server options and the
    default timeout of 8 seconds, and exits with code 0 whatever the
    engine ends with; no client is run and no thread is started. *)
Theorem X8_server_mode_run :
  forall (decl : Declarations) (inp : Inputs)
         (t : list Event) (config : Config),
    enet_initialize inp = 0 ->
    configure decl (configFile inp) (argv inp) = (t, Normal config) ->
    launchType config = Server ->
    main decl inp
    = ((EnetInitialize :: t
          ++ [Log "Launcher" "Launching server";
              RunServerEngine (serverOptions config) (seconds 8);
              Log "Launcher" "Server has exited."])%list,
       Exited 0)
    /\ asMicroseconds (seconds 8) = 8000000.
Proof.
  intros decl inp t config E C L. split; [|reflexivity].
  rewrite (main_after_configure decl inp t config 0 E C);
    unfold launchSwitch; rewrite L; reflexivity.
Qed.

Lemma X8_server_mode_witness :
  main sample_declarations
    (mkInputs ["open-builder"; "-server"; "3"] None 0
       (mkEngines CouldNotConnect Exit Exit))
  = ([EnetInitialize;
      Log "Launcher" "Launching server";
      RunServerEngine (defaultServerOptions sample_declarations) (seconds 8);
      Log "Launcher" "Server has exited."],
     Exited 0).
Proof.
  apply (proj1 (X8_server_mode_run sample_declarations
                  (mkInputs ["open-builder"; "-server"; "3"] None 0
                     (mkEngines CouldNotConnect Exit Exit))
                  [] _ eq_refl eq_refl eq_refl)).
Defined.




Lemma launchSwitch_threads e config :
  joined (trace (launchSwitch e config))
  = rev (started (trace (launchSwitch e config)))
  /\ (List.length (started (trace (launchSwitch e config))) <= 2)%nat.
Proof.
  unfold launchSwitch, launchBoth, launchServerAnd2Players.
  destruct (launchType config); try destruct (clientEngine e);
    split; simpl; try reflexivity; lia.
Qed.

(** X10. Every thread [main] starts it joins before it returns: in
    each run the threads joined are the threads started, in the
    opposite order ([client2] before [serverThread]), and at most two
    threads are started; a run that is terminated during parsing has
    started none. *)
Theorem X10_threads_are_joined :
  forall (decl : Declarations) (inp : Inputs),
    joined (fst (main decl inp)) = rev (started (fst (main decl inp)))
    /\ (List.length (started (fst (main decl inp))) <= 2)%nat
    /\ (forall e, snd (main decl inp) = Terminated e ->
                  started (fst (main decl inp)) = []).
Proof.
  intros decl inp.
  destruct (main_cases decl inp)
    as [(E & M) | [(E & X & t & F & M) | (E & X & t & c & code & C & F & _ & S & M)]];
    rewrite M; simpl fst; simpl snd.
  - repeat split; simpl; try reflexivity; lia.
  - destruct (stdout_only t F) as (_ & _ & St & Jo & _).
    change (EnetInitialize :: t) with ([EnetInitialize] ++ t)%list.
    rewrite started_app, joined_app, St, Jo. simpl.
    repeat split; try reflexivity; lia.
  - destruct (stdout_only t F) as (_ & _ & St & Jo & _).
    destruct (launchSwitch_threads (engines inp) c) as [J L].
    change (EnetInitialize :: t ++ trace (launchSwitch (engines inp) c))%list
      with ([EnetInitialize] ++ t ++ trace (launchSwitch (engines inp) c))%list.
    rewrite !started_app, !joined_app, St, Jo. simpl.
    repeat split; try assumption. discriminate.
Qed.

Lemma X10_threads_witness :
  started (fst (main sample_declarations
                  (mkInputs ["open-builder"; "-server"; "4294967296"]
                     None 0 quiet_engines))) = []
  /\ joined (fst (main sample_declarations
                    (mkInputs ["open-builder"] None 0 quiet_engines)))
     = ["client2"; "serverThread"].
Proof.
  split.
  - apply (proj2 (proj2 (X10_threads_are_joined sample_declarations
                           (mkInputs ["open-builder"; "-server"; "4294967296"]
                              None 0 quiet_engines)))
             (out_of_range "stoi") eq_refl).
  - rewrite (proj1 (X10_threads_are_joined sample_declarations
                      (mkInputs ["open-builder"] None 0 quiet_engines))).
    reflexivity.
Defined.

(** X11. The skin name comes from the last [-skin] option when there is
    one, overriding a [SKIN] line of [config.txt], and from the
    configuration file (or the built-in value) when there is none. *)
Theorem X11_skin_name_after_parsing :
  forall (decl : Declarations) (file : option string) (argv : list string),
    existsb aborts_on (pairArgs argv) = false ->
    exists t config,
      configure decl file argv = (t, Normal config)
      /\ (forall before name after,
             pairArgs argv = (before ++ ("-skin", name) :: after)%list ->
             (forall o, In o after -> is_option "-skin" o = false) ->
             skinName (clientOptions config) = name)
      /\ ((forall o, In o (pairArgs argv) -> is_option "-skin" o = false) ->
          skinName (clientOptions config)
          = skinName (clientOptions
                        (loadFromConfigFile file (defaultConfig decl)))).
Proof.
  intros decl file argv A.
  destruct (configure_cases decl file argv)
    as [(X & _) | (_ & t & c & E & _ & _ & _ & _ & Sk)]; [congruence|].
  exists t, c. split; [exact E|]. split.
  - intros before name after P N. rewrite Sk, P, fold_left_last.
    + reflexivity.
    + intros o I a. unfold skin_choice. now rewrite (N o I).
  - intros N. rewrite Sk. apply fold_left_unchanged.
    intros o I a. unfold skin_choice. now rewrite (N o I).
Qed.

Lemma X11_skin_name_witness :
  exists t config,
    configure sample_declarations (Some "SKIN blue")
      ["open-builder"; "-skin"; "green"; "-skin"; "red"]
    = (t, Normal config)
    /\ skinName (clientOptions config) = "red".
Proof.
  destruct (X11_skin_name_after_parsing sample_declarations (Some "SKIN blue")
              ["open-builder"; "-skin"; "green"; "-skin"; "red"] eq_refl)
    as (t & config & E & Last & _).
  exists t, config. split; [exact E|].
  apply (Last [("-skin", "green")] "red" []); [reflexivity|].
  intros o [].
Defined.

(* ================================================================== *)
(** * Further properties of the configuration file *)

(** ** Decimal numerals are read back as written *)

Lemma digits_string_of_uint d : forall L rest,
  Text.starts_with_digit rest = false ->
  Text.digits (Z.of_N (DecimalPos.Unsigned.of_lu L))
    (NilEmpty.string_of_uint d ++ rest)
  = (Z.of_N (DecimalPos.Unsigned.of_lu (Decimal.revapp d L)), rest).
Proof.
  induction d; intros L rest R;
    try (cbn [NilEmpty.string_of_uint Decimal.revapp append Text.digits];
         change (Text.isdigit _) with true; cbv iota;
         rewrite <- IHd by exact R; f_equal;
         cbn [DecimalPos.Unsigned.of_lu]; unfold Text.digit_value;
         change (Text.code _) with 48 || change (Text.code _) with 49
         || change (Text.code _) with 50 || change (Text.code _) with 51
         || change (Text.code _) with 52 || change (Text.code _) with 53
         || change (Text.code _) with 54 || change (Text.code _) with 55
         || change (Text.code _) with 56 || change (Text.code _) with 57;
         lia).
  simpl. destruct rest as [|c rest]; [reflexivity|].
  simpl in R. simpl. now rewrite R.
Qed.

Lemma digits_numeral d rest :
  Text.starts_with_digit rest = false ->
  Text.digits 0 (NilEmpty.string_of_uint d ++ rest) = (Z.of_uint d, rest).
Proof.
  intros R.
  change 0 with (Z.of_N (DecimalPos.Unsigned.of_lu Decimal.Nil)).
  rewrite (digits_string_of_uint d Decimal.Nil rest R).
  unfold Z.of_uint. now rewrite DecimalPos.Unsigned.of_uint_alt.
Qed.

(** The first character of a numeral without sign. *)
Lemma numeral_head d :
  d <> Decimal.Nil ->
  exists c s, NilEmpty.string_of_uint d = String c s
              /\ Text.isdigit c = true
              /\ Ascii.eqb c Text.dash = false
              /\ Ascii.eqb c Text.plus = false
              /\ Text.isspace c = false.
Proof.
  intros N. destruct d; [now elim N| ..];
    eexists _, _; (split; [reflexivity|]); now repeat split.
Qed.

Lemma signed_decimal_unsigned d rest :
  d <> Decimal.Nil ->
  Text.starts_with_digit rest = false ->
  Text.signed_decimal (NilEmpty.string_of_uint d ++ rest)
  = (Some (Z.of_uint d), rest).
Proof.
  intros N R. pose proof (digits_numeral d rest R) as D.
  destruct (numeral_head d N) as (c & s & E & Dg & Nd & Np & _).
  unfold Text.signed_decimal. rewrite E in *. simpl append in *.
  cbv beta iota. rewrite Nd, Np. cbv beta iota.
  cbn [Text.starts_with_digit]. rewrite Dg, D. reflexivity.
Qed.

Lemma string_of_uint_nonnil d :
  d <> Decimal.Nil -> NilZero.string_of_uint d = NilEmpty.string_of_uint d.
Proof. intros N. destruct d; [now elim N | reflexivity ..]. Qed.

Lemma signed_decimal_to_string n rest :
  Text.starts_with_digit rest = false ->
  Text.signed_decimal (Text.to_string n ++ rest) = (Some n, rest).
Proof.
  intros R. unfold Text.to_string. destruct n as [|p|p]; simpl Z.to_int.
  - simpl. destruct rest as [|c rest]; [reflexivity|].
    simpl in R. unfold Text.signed_decimal. simpl. now rewrite R.
  - pose proof (DecimalPos.Unsigned.to_uint_nonnil p) as N.
    unfold NilZero.string_of_int.
    rewrite (string_of_uint_nonnil _ N), (signed_decimal_unsigned _ rest N R).
    unfold Z.of_uint. now rewrite DecimalPos.Unsigned.of_to.
  - pose proof (DecimalPos.Unsigned.to_uint_nonnil p) as N.
    assert (NilZero.string_of_int (Decimal.Neg (Pos.to_uint p))
            = String Text.dash (NilEmpty.string_of_uint (Pos.to_uint p))) as E.
    { unfold NilZero.string_of_int. now rewrite (string_of_uint_nonnil _ N). }
    rewrite E. pose proof (digits_numeral (Pos.to_uint p) rest R) as D.
    destruct (numeral_head _ N) as (c & s & Es & Dg & _).
    unfold Text.signed_decimal. simpl append. cbv beta iota.
    rewrite Ascii.eqb_refl. rewrite Es in *. simpl append in *.
    cbv beta iota. cbn [Text.starts_with_digit]. rewrite Dg, D.
    unfold Z.of_uint. now rewrite DecimalPos.Unsigned.of_to.
Qed.

Lemma to_string_head n :
  exists c s, Text.to_string n = String c s /\ Text.isspace c = false.
Proof.
  unfold Text.to_string. destruct n as [|p|p]; simpl Z.to_int.
  - now eexists _, _.
  - pose proof (DecimalPos.Unsigned.to_uint_nonnil p) as N.
    destruct (numeral_head _ N) as (c & s & E & _ & _ & _ & Sp).
    exists c, s. split; [|exact Sp].
    unfold NilZero.string_of_int. now rewrite (string_of_uint_nonnil _ N).
  - pose proof (DecimalPos.Unsigned.to_uint_nonnil p) as N.
    exists Text.dash, (NilEmpty.string_of_uint (Pos.to_uint p)).
    split; [|reflexivity].
    unfold NilZero.string_of_int. now rewrite (string_of_uint_nonnil _ N).
Qed.

(** ** Reading one value *)

Lemma skip_space_app ws x :
  all_space ws = true -> Text.skip_space (ws ++ x) = Text.skip_space x.
Proof.
  induction ws as [|c ws IH]; simpl; [reflexivity|].
  intros H. apply andb_true_iff in H. destruct H as [C W].
  rewrite C. now apply IH.
Qed.

Lemma skip_space_all ws : all_space ws = true -> Text.skip_space ws = EmptyString.
Proof.
  intros H. rewrite <- (append_nil_r ws). now rewrite skip_space_app.
Qed.

Lemma sentry_before_value ws c s :
  all_space ws = true -> Text.isspace c = false ->
  IStream.sentry (IStream.mk (ws ++ String c s) false) = Some (String c s).
Proof.
  intros W C. unfold IStream.sentry. cbn [IStream.failbit IStream.buf].
  rewrite (skip_space_app ws _ W). simpl. now rewrite C.
Qed.

Lemma sentry_at_end ws :
  all_space ws = true -> IStream.sentry (IStream.mk ws false) = None.
Proof.
  intros W. unfold IStream.sentry. cbn [IStream.failbit IStream.buf].
  now rewrite (skip_space_all ws W).
Qed.

Lemma get_int_numeral ws n tail old :
  all_space ws = true ->
  Text.starts_with_digit tail = false ->
  IStream.get_int (IStream.mk (ws ++ Text.to_string n ++ tail) false) old
  = if (n <? Text.INT_MIN)%Z then (Text.INT_MIN, IStream.mk tail true)
    else if (n >? Text.INT_MAX)%Z then (Text.INT_MAX, IStream.mk tail true)
    else (n, IStream.mk tail false).
Proof.
  intros W T. unfold IStream.get_int.
  destruct (to_string_head n) as (c & s & E & C).
  pose proof (signed_decimal_to_string n tail T) as D.
  rewrite E in *. simpl append in *.
  rewrite (sentry_before_value ws c _ W C), D. reflexivity.
Qed.

Lemma get_bool_numeral ws n tail old :
  all_space ws = true ->
  Text.starts_with_digit tail = false ->
  IStream.get_bool (IStream.mk (ws ++ Text.to_string n ++ tail) false) old
  = if (n =? 0)%Z then (false, IStream.mk tail false)
    else if (n =? 1)%Z then (true, IStream.mk tail false)
    else (true, IStream.mk tail true).
Proof.
  intros W T. unfold IStream.get_bool.
  destruct (to_string_head n) as (c & s & E & C).
  pose proof (signed_decimal_to_string n tail T) as D.
  rewrite E in *. simpl append in *.
  rewrite (sentry_before_value ws c _ W C), D. reflexivity.
Qed.

Lemma signed_decimal_no_number value :
  begins_no_number value = true ->
  Text.signed_decimal value = (None, value)
  /\ exists c s, value = String c s /\ Text.isspace c = false.
Proof.
  destruct value as [|c s]; [discriminate|]. simpl. intros H.
  apply andb_true_iff in H. destruct H as [H P].
  apply andb_true_iff in H. destruct H as [H M].
  apply andb_true_iff in H. destruct H as [S D].
  apply negb_true_iff in P, M, S, D.
  split; [|now exists c, s].
  unfold Text.signed_decimal. rewrite M, P. simpl. now rewrite D.
Qed.

Lemma get_int_no_number ws value old :
  all_space ws = true -> begins_no_number value = true ->
  IStream.get_int (IStream.mk (ws ++ value) false) old
  = (0, IStream.mk value true).
Proof.
  intros W V. destruct (signed_decimal_no_number value V) as (D & c & s & -> & C).
  unfold IStream.get_int. now rewrite (sentry_before_value ws c s W C), D.
Qed.

Lemma get_bool_no_number ws value old :
  all_space ws = true -> begins_no_number value = true ->
  IStream.get_bool (IStream.mk (ws ++ value) false) old
  = (false, IStream.mk value true).
Proof.
  intros W V. destruct (signed_decimal_no_number value V) as (D & c & s & -> & C).
  unfold IStream.get_bool. now rewrite (sentry_before_value ws c s W C), D.
Qed.

Lemma get_at_end ws :
  all_space ws = true ->
  (forall old, IStream.get_int (IStream.mk ws false) old
               = (old, IStream.mk EmptyString true))
  /\ (forall old, IStream.get_bool (IStream.mk ws false) old
                  = (old, IStream.mk EmptyString true))
  /\ (forall old, IStream.get_string (IStream.mk ws false) old
                  = (old, IStream.mk EmptyString true)).
Proof.
  intros W. pose proof (sentry_at_end ws W) as S.
  unfold IStream.get_int, IStream.get_bool, IStream.get_string.
  rewrite S. now repeat split.
Qed.

(** The branch [loadEntry] takes for each key. *)
Lemma loadEntry_key key config s :
  loadEntry config (key_name key) s
  = match key with
    | FULLSCREEN =>
        let '(v, s') := IStream.get_bool s (fullScreen (clientOptions config)) in
        (set_option key (Flag v) config, s')
    | WIN_WIDTH =>
        let '(v, s') := IStream.get_int s (windowWidth (clientOptions config)) in
        (set_option key (Number v) config, s')
    | WIN_HEIGHT =>
        let '(v, s') := IStream.get_int s (windowHeight (clientOptions config)) in
        (set_option key (Number v) config, s')
    | FPS_CAPPED =>
        let '(v, s') := IStream.get_bool s (isFpsCapped (clientOptions config)) in
        (set_option key (Flag v) config, s')
    | FPS =>
        let '(v, s') := IStream.get_int s (fpsLimit (clientOptions config)) in
        (set_option key (Number v) config, s')
    | FOV =>
        let '(v, s') := IStream.get_int s (fov (clientOptions config)) in
        (set_option key (Number v) config, s')
    | SKIN =>
        let '(v, s') := IStream.get_string s (skinName (clientOptions config)) in
        (set_option key (Name v) config, s')
    | WORLD_HEIGHT =>
        let '(v, s') := IStream.get_int s (worldHeight (serverOptions config)) in
        (set_option key (Number v) config, s')
    | WORLD_SIZE =>
        let '(v, s') := IStream.get_int s (worldSize (serverOptions config)) in
        (set_option key (Number v) config, s')
    end.
Proof. destruct key; reflexivity. Qed.

Lemma set_option_same key config :
  set_option key (option_of key config) config = config.
Proof.
  destruct config as [ty [mc ws wh] [fs ww wht cap fps fv skin]].
  destruct key; reflexivity.
Qed.

Lemma get_string_key_at_end key ws :
  all_space ws = true ->
  IStream.get_string (IStream.mk (key_name key ++ ws) false) EmptyString
  = (key_name key, IStream.mk ws false).
Proof.
  intros W. destruct ws as [|c ws].
  - destruct key; reflexivity.
  - simpl in W. apply andb_true_iff in W. destruct W as [C _].
    now apply get_string_key.
Qed.

Lemma get_string_token_after ws w c rest old :
  all_space ws = true -> is_word w = true -> Text.isspace c = true ->
  IStream.get_string (IStream.mk (ws ++ w ++ String c rest) false) old
  = (w, IStream.mk (String c rest) false).
Proof.
  intros W Hw C. destruct w as [|x w]; [discriminate|].
  unfold is_word in Hw.
  pose proof (word_of_token (String x w) c rest Hw C) as K.
  simpl in Hw. apply andb_true_iff in Hw. destruct Hw as [Nx _].
  apply negb_true_iff in Nx.
  unfold IStream.get_string.
  change (String x w ++ String c rest) with (String x (w ++ String c rest)) in *.
  now rewrite (sentry_before_value ws x _ W Nx), K.
Qed.

(** X12. A file that holds nothing but white space, or nothing at all,
    leaves the configuration as it was, and so does a key that ends the
    file without a value: the option of that key keeps its value. *)
Theorem X12_blank_file_and_key_without_value :
  forall (config : Config) (ws : string),
    all_space ws = true ->
    loadFromConfigFile (Some ws) config = config
    /\ forall key,
         loadFromConfigFile (Some (key_name key ++ ws)) config = config.
Proof.
  intros config ws W.
  destruct (get_at_end ws W) as (Gi & Gb & Gs).
  split.
  - unfold loadFromConfigFile, run_loadLoop, IStream.open.
    now rewrite loadLoop_S, Gs.
  - intros key. unfold loadFromConfigFile, IStream.open.
    rewrite (run_loadLoop_step config _ (key_name key) (IStream.mk ws false)
               config (IStream.mk EmptyString true)
               (get_string_key_at_end key ws W) eq_refl).
    + now rewrite run_loadLoop_failed.
    + rewrite loadEntry_key.
      destruct key; rewrite ?Gi, ?Gb, ?Gs; f_equal;
        match goal with
        | |- set_option ?k _ _ = _ => apply (set_option_same k)
        end.
Qed.

Lemma X12_blank_file_witness :
  loadFromConfigFile (Some (" " ++ Text.nl ++ Text.nl))
    (defaultConfig sample_declarations)
  = defaultConfig sample_declarations
  /\ loadFromConfigFile (Some ("WORLD_SIZE" ++ Text.nl))
       (defaultConfig sample_declarations)
     = defaultConfig sample_declarations.
Proof.
  split.
  - apply (proj1 (X12_blank_file_and_key_without_value
                    (defaultConfig sample_declarations)
                    (" " ++ Text.nl ++ Text.nl) eq_refl)).
  - apply (proj2 (X12_blank_file_and_key_without_value
                    (defaultConfig sample_declarations) Text.nl eq_refl)
             WORLD_SIZE).
Defined.

(** X13. For each of the six numeric keys and every [int] value [n],
    the key followed by white space and [n] written in decimal stores
    [n] in the option of that key, and loading goes on right behind the
    last digit (so with whatever is glued to the number, too). *)
Theorem X13_numeric_key_stores_its_value :
  forall (key : Key) (n : Z) (c : ascii) (ws tail : string) (config : Config),
    is_numeric key = true ->
    Text.isspace c = true -> all_space ws = true ->
    Text.in_int_range n = true ->
    Text.starts_with_digit tail = false ->
    loadFromConfigFile
      (Some (key_name key ++ String c (ws ++ Text.to_string n ++ tail))) config
    = loadFromConfigFile (Some tail) (set_option key (Number n) config).
Proof.
  intros key n c ws tail config K C W R T.
  assert (all_space (String c ws) = true) as W' by (simpl; now rewrite C, W).
  unfold Text.in_int_range in R. apply andb_true_iff in R. destruct R as [Lo Hi].
  apply Z.leb_le in Lo, Hi.
  unfold loadFromConfigFile, IStream.open. f_equal.
  apply (run_loadLoop_step config _ (key_name key)
           (IStream.mk (String c (ws ++ Text.to_string n ++ tail)) false)).
  - now apply get_string_key.
  - reflexivity.
  - rewrite loadEntry_key.
    change (String c (ws ++ Text.to_string n ++ tail))
      with (String c ws ++ Text.to_string n ++ tail).
    destruct key; try discriminate K;
      rewrite (get_int_numeral (String c ws) n tail _ W' T);
      destruct (Z.ltb_spec n Text.INT_MIN); try lia;
      destruct (Z.gtb_spec n Text.INT_MAX); try lia; reflexivity.
Qed.

Lemma X13_numeric_key_witness :
  loadFromConfigFile (Some ("FOV -7" ++ Text.nl ++ "WIN_WIDTH 1920FPS 144"))
    (defaultConfig sample_declarations)
  = with_client (set_fpsLimit 144)
      (with_client (set_windowWidth 1920)
         (with_client (set_fov (-7)) (defaultConfig sample_declarations))).
Proof.
  etransitivity.
  - exact (X13_numeric_key_stores_its_value FOV (-7) " "%char EmptyString
             (Text.nl ++ "WIN_WIDTH 1920FPS 144")
             (defaultConfig sample_declarations)
             eq_refl eq_refl eq_refl eq_refl eq_refl).
  - reflexivity.
Defined.

(** X14. A number outside [int] after a numeric key is not stored as
    written: the option is set to the nearest bound of [int],
    [INT_MAX] or [INT_MIN], and nothing after it is read. *)
Theorem X14_numeric_key_saturates :
  forall (key : Key) (n : Z) (c : ascii) (ws tail : string) (config : Config),
    is_numeric key = true ->
    Text.isspace c = true -> all_space ws = true ->
    Text.in_int_range n = false ->
    Text.starts_with_digit tail = false ->
    loadFromConfigFile
      (Some (key_name key ++ String c (ws ++ Text.to_string n ++ tail))) config
    = set_option key
        (Number (if (n <? Text.INT_MIN)%Z then Text.INT_MIN else Text.INT_MAX))
        config.
Proof.
  intros key n c ws tail config K C W R T.
  assert (all_space (String c ws) = true) as W' by (simpl; now rewrite C, W).
  assert ((n <? Text.INT_MIN)%Z = true
          \/ (n <? Text.INT_MIN)%Z = false /\ (n >? Text.INT_MAX)%Z = true) as O.
  { unfold Text.in_int_range in R. apply andb_false_iff in R.
    destruct (Z.ltb_spec n Text.INT_MIN); [now left|]. right. split; [reflexivity|].
    destruct R as [R | R]; apply Z.leb_gt in R; [lia|].
    apply Z.gtb_lt. lia. }
  unfold loadFromConfigFile, IStream.open.
  rewrite (run_loadLoop_step config _ (key_name key)
             (IStream.mk (String c (ws ++ Text.to_string n ++ tail)) false)
             (set_option key
                (Number (if (n <? Text.INT_MIN)%Z then Text.INT_MIN
                         else Text.INT_MAX)) config)
             (IStream.mk tail true)
             (get_string_key key c _ C) eq_refl).
  - now rewrite run_loadLoop_failed.
  - rewrite loadEntry_key.
    change (String c (ws ++ Text.to_string n ++ tail))
      with (String c ws ++ Text.to_string n ++ tail).
    destruct key; try discriminate K;
      rewrite (get_int_numeral (String c ws) n tail _ W' T);
      destruct O as [-> | [-> ->]]; reflexivity.
Qed.

Lemma X14_numeric_key_saturates_witness :
  loadFromConfigFile
    (Some ("WORLD_HEIGHT 4294967296" ++ Text.nl ++ "WORLD_SIZE 32"))
    (defaultConfig sample_declarations)
  = with_server (set_worldHeight 2147483647) (defaultConfig sample_declarations).
Proof.
  apply (X14_numeric_key_saturates WORLD_HEIGHT 4294967296 " "%char EmptyString
           (Text.nl ++ "WORLD_SIZE 32") (defaultConfig sample_declarations)
           eq_refl eq_refl eq_refl eq_refl eq_refl).
Defined.

(** X15. After [FULLSCREEN] or [FPS_CAPPED] the value is read as a
    number: 0 stores false and 1 stores true, and loading goes on; any
    other number stores true and nothing after it is read. *)
Theorem X15_flag_key_reads_a_number :
  forall (key : Key) (n : Z) (c : ascii) (ws tail : string) (config : Config),
    is_flag key = true ->
    Text.isspace c = true -> all_space ws = true ->
    Text.starts_with_digit tail = false ->
    loadFromConfigFile
      (Some (key_name key ++ String c (ws ++ Text.to_string n ++ tail))) config
    = if (n =? 0)%Z
      then loadFromConfigFile (Some tail) (set_option key (Flag false) config)
      else if (n =? 1)%Z
           then loadFromConfigFile (Some tail) (set_option key (Flag true) config)
           else set_option key (Flag true) config.
Proof.
  intros key n c ws tail config K C W T.
  assert (all_space (String c ws) = true) as W' by (simpl; now rewrite C, W).
  unfold loadFromConfigFile, IStream.open.
  pose proof (get_string_key key c (ws ++ Text.to_string n ++ tail) C) as G.
  destruct (loadEntry config (key_name key)
              (IStream.mk (String c (ws ++ Text.to_string n ++ tail)) false))
    as [config' s'] eqn:E.
  rewrite (run_loadLoop_step config _ _ _ config' s' G eq_refl E).
  rewrite loadEntry_key in E.
  change (String c (ws ++ Text.to_string n ++ tail))
    with (String c ws ++ Text.to_string n ++ tail) in E.
  destruct key; try discriminate K;
    rewrite (get_bool_numeral (String c ws) n tail _ W' T) in E;
    destruct (n =? 0)%Z; [| destruct (n =? 1)%Z | | destruct (n =? 1)%Z];
    injection E as <- <-; try reflexivity;
    now rewrite run_loadLoop_failed.
Qed.

Lemma X15_flag_key_witness :
  loadFromConfigFile
    (Some ("FULLSCREEN 1" ++ Text.nl ++ "FPS_CAPPED 2" ++ Text.nl ++ "FOV 90"))
    (defaultConfig sample_declarations)
  = with_client (set_isFpsCapped true)
      (with_client (set_fullScreen true) (defaultConfig sample_declarations)).
Proof.
  etransitivity.
  - exact (X15_flag_key_reads_a_number FULLSCREEN 1 " "%char EmptyString
             (Text.nl ++ "FPS_CAPPED 2" ++ Text.nl ++ "FOV 90")
             (defaultConfig sample_declarations)
             eq_refl eq_refl eq_refl eq_refl).
  - reflexivity.
Defined.

(** X16. A value that cannot begin a number (its first character is
    neither a digit nor a sign), after any key but [SKIN], is not
    stored: a numeric option becomes 0, a flag becomes false, even for
    the word [true], and nothing after it is read. *)
Theorem X16_word_where_a_number_is_expected :
  forall (key : Key) (c : ascii) (ws value : string) (config : Config),
    key <> SKIN ->
    Text.isspace c = true -> all_space ws = true ->
    begins_no_number value = true ->
    loadFromConfigFile (Some (key_name key ++ String c (ws ++ value))) config
    = set_option key (if is_flag key then Flag false else Number 0) config.
Proof.
  intros key c ws value config K C W V.
  assert (all_space (String c ws) = true) as W' by (simpl; now rewrite C, W).
  unfold loadFromConfigFile, IStream.open.
  rewrite (run_loadLoop_step config _ (key_name key)
             (IStream.mk (String c (ws ++ value)) false)
             (set_option key (if is_flag key then Flag false else Number 0)
                config)
             (IStream.mk value true)
             (get_string_key key c _ C) eq_refl).
  - now rewrite run_loadLoop_failed.
  - rewrite loadEntry_key.
    change (String c (ws ++ value)) with (String c ws ++ value).
    destruct key; try (now elim K);
      rewrite ?(get_int_no_number (String c ws) value _ W' V),
              ?(get_bool_no_number (String c ws) value _ W' V);
      reflexivity.
Qed.

Lemma X16_word_witness :
  loadFromConfigFile
    (Some ("FULLSCREEN true" ++ Text.nl ++ "WORLD_SIZE 32"))
    (mkConfig TwoPlayer (defaultServerOptions sample_declarations)
       (mkClientConfig true 1280 720 true 60 65 "player"))
  = mkConfig TwoPlayer (defaultServerOptions sample_declarations)
      (mkClientConfig false 1280 720 true 60 65 "player").
Proof.
  apply (X16_word_where_a_number_is_expected FULLSCREEN " "%char EmptyString
           ("true" ++ Text.nl ++ "WORLD_SIZE 32")
           (mkConfig TwoPlayer (defaultServerOptions sample_declarations)
              (mkClientConfig true 1280 720 true 60 65 "player"))).
  - discriminate.
  - reflexivity.
  - reflexivity.
  - reflexivity.
Defined.

(** X17. The loader reads words, not lines: a word that is no key is
    passed over on its own, whatever follows it, so the word after an
    unknown key is itself taken for a key. *)
Theorem X17_unknown_word_is_skipped_alone :
  forall (word : string) (c : ascii) (rest : string) (config : Config),
    is_word word = true -> recognised word = false ->
    Text.isspace c = true ->
    loadFromConfigFile (Some (word ++ String c rest)) config
    = loadFromConfigFile (Some rest) config.
Proof.
  intros word c rest config Hw U C.
  unfold loadFromConfigFile, IStream.open. f_equal.
  rewrite (run_loadLoop_step config _ word _ config _
             (get_string_token word c rest EmptyString Hw C) eq_refl
             (loadEntry_unrecognised config word _ U)).
  now apply run_loadLoop_leading_space.
Qed.

Lemma X17_unknown_word_witness :
  loadFromConfigFile (Some ("SEED FPS" ++ Text.nl ++ "WORLD_SIZE 32"))
    (defaultConfig sample_declarations)
  = with_client (set_fpsLimit 0) (defaultConfig sample_declarations).
Proof.
  etransitivity.
  - exact (X17_unknown_word_is_skipped_alone "SEED" " "%char
             ("FPS" ++ Text.nl ++ "WORLD_SIZE 32")
             (defaultConfig sample_declarations) eq_refl eq_refl eq_refl).
  - reflexivity.
Defined.

(** X18. After [SKIN] the next word, whatever it is (a number, a key
    name), becomes the skin name, and loading goes on behind it. *)
Theorem X18_skin_key_stores_the_next_word :
  forall (name : string) (c c' : ascii) (ws rest : string) (config : Config),
    is_word name = true ->
    Text.isspace c = true -> all_space ws = true -> Text.isspace c' = true ->
    loadFromConfigFile
      (Some ("SKIN" ++ String c (ws ++ name ++ String c' rest))) config
    = loadFromConfigFile (Some rest) (with_client (set_skinName name) config).
Proof.
  intros name c c' ws rest config N C W C'.
  assert (all_space (String c ws) = true) as W' by (simpl; now rewrite C, W).
  unfold loadFromConfigFile, IStream.open. f_equal.
  change "SKIN" with (key_name SKIN).
  rewrite (run_loadLoop_step config _ (key_name SKIN)
             (IStream.mk (String c (ws ++ name ++ String c' rest)) false)
             (with_client (set_skinName name) config)
             (IStream.mk (String c' rest) false)
             (get_string_key SKIN c _ C) eq_refl).
  - now apply run_loadLoop_leading_space.
  - rewrite (loadEntry_key SKIN).
    change (String c (ws ++ name ++ String c' rest))
      with (String c ws ++ name ++ String c' rest).
    now rewrite (get_string_token_after (String c ws) name c' rest _ W' N C').
Qed.

Lemma X18_skin_key_witness :
  loadFromConfigFile (Some ("SKIN FPS" ++ Text.nl ++ "FOV 100"))
    (defaultConfig sample_declarations)
  = with_client (set_fov 100)
      (with_client (set_skinName "FPS") (defaultConfig sample_declarations)).
Proof.
  etransitivity.
  - exact (X18_skin_key_stores_the_next_word "FPS" " "%char Text.newline
             EmptyString "FOV 100" (defaultConfig sample_declarations)
             eq_refl eq_refl eq_refl eq_refl).
  - reflexivity.
Defined.

(* ================================================================== *)
(** * Further properties of the command line *)

Lemma stoi_to_string n :
  stoi (Text.to_string n)
  = if Text.in_int_range n then ([], Normal n)
    else ([], Thrown (out_of_range "stoi")).
Proof.
  unfold stoi.
  destruct (to_string_head n) as (c & s & E & C).
  assert (Text.skip_space (Text.to_string n) = Text.to_string n) as K.
  { rewrite E. simpl. now rewrite C. }
  rewrite K.
  pose proof (signed_decimal_to_string n EmptyString eq_refl) as D.
  rewrite append_nil_r in D. rewrite D. simpl.
  now destruct (Text.in_int_range n).
Qed.

(** X19. For a [-server] count written as a decimal numeral [n]: from 2
    to 16 nothing is printed and nothing but the launch type is set;
    below 2 the notice names the minimum and above 16 (within [int])
    the maximum, and [maxConnections] becomes 4; beyond [int] parsing
    ends in [std::out_of_range]. *)
Theorem X19_server_count_numeral :
  forall (decl : Declarations) (file : option string)
         (program : string) (n : Z),
    configure decl file [program; "-server"; Text.to_string n]
    = if negb (Text.in_int_range n) then ([], Thrown (out_of_range "stoi"))
      else if (n <? 2)%Z
      then ([Stdout (fallback_notice (below_minimum decl))],
            Normal (with_server (set_maxConnections 4)
                      (with_launchType Server
                         (loadFromConfigFile file (defaultConfig decl)))))
      else if (n >? 16)%Z
      then ([Stdout (fallback_notice (above_maximum decl))],
            Normal (with_server (set_maxConnections 4)
                      (with_launchType Server
                         (loadFromConfigFile file (defaultConfig decl)))))
      else ([], Normal (with_launchType Server
                          (loadFromConfigFile file (defaultConfig decl)))).
Proof.
  intros decl file program n.
  unfold configure, pairArgs. cbn [tl pairFrom begins_with_dash].
  change (Ascii.eqb "-" Text.dash) with true. cbn [app parseArgs].
  unfold parseOption. cbn [fst snd].
  change ("-server" =? "-server")%string with true. cbv iota.
  rewrite stoi_to_string.
  destruct (Text.in_int_range n); [|reflexivity].
  cbn [negb try_catch_invalid_argument bind ret].
  destruct (n <? 2)%Z; [reflexivity|].
  destruct (n >? 16)%Z; reflexivity.
Qed.

Lemma parseArgs_same_launch decl args : forall c1 c2,
  launch_settings c1 = launch_settings c2 ->
  trace (parseArgs decl c1 args) = trace (parseArgs decl c2 args)
  /\ match result (parseArgs decl c1 args), result (parseArgs decl c2 args) with
     | Normal a, Normal b => launch_settings a = launch_settings b
     | Thrown e1, Thrown e2 => e1 = e2
     | _, _ => False
     end.
Proof.
  induction args as [|o rest IH]; intros c1 c2 L.
  - split; [reflexivity | exact L].
  - assert (trace (parseOption decl c1 o) = trace (parseOption decl c2 o)
            /\ match result (parseOption decl c1 o),
                     result (parseOption decl c2 o) with
               | Normal a, Normal b => launch_settings a = launch_settings b
               | Thrown e1, Thrown e2 => e1 = e2
               | _, _ => False
               end) as [T R].
    { unfold launch_settings in L. injection L as LT LM.
      destruct o as [name text].
      destruct (String.eqb_spec name "-server") as [-> | N].
      - rewrite !parseOption_server.
        destruct (overflows text); [now split|].
        destruct (falls_back text);
          (split; [reflexivity | unfold launch_settings; simpl; congruence]).
      - rewrite !(parseOption_other decl _ (name, text) N). simpl.
        split; [reflexivity|].
        destruct (name =? "-client");
          [unfold launch_settings; simpl; congruence|].
        destruct (name =? "-skin"); unfold launch_settings; simpl; congruence. }
    simpl parseArgs.
    destruct (parseOption decl c1 o) as [t1 [a | z1 | e1]];
      destruct (parseOption decl c2 o) as [t2 [b | z2 | e2]];
      unfold trace, result in T, R; simpl in T, R; try contradiction; subst.
    + destruct (IH a b R) as [T' R'].
      unfold bind.
      destruct (parseArgs decl a rest) as [ta ra];
        destruct (parseArgs decl b rest) as [tb rb].
      unfold trace, result in *; simpl in *. subst. now split.
    + now split.
Qed.

(** X20. [config.txt] has no say in how the process is launched:
    whatever two files hold, the same command line gives the same
    notices, ends parsing the same way (completed, or the same
    exception), and gives the same launch type and the same
    [maxConnections]. *)
Theorem X20_config_file_cannot_change_launch :
  forall (decl : Declarations) (file1 file2 : option string)
         (argv : list string),
    trace (configure decl file1 argv) = trace (configure decl file2 argv)
    /\ match result (configure decl file1 argv),
             result (configure decl file2 argv) with
       | Normal a, Normal b =>
           launchType a = launchType b
           /\ maxConnections (serverOptions a) = maxConnections (serverOptions b)
       | Thrown e1, Thrown e2 => e1 = e2
       | _, _ => False
       end.
Proof.
  intros decl file1 file2 argv. unfold configure.
  destruct (parseArgs_same_launch decl (pairArgs argv)
              (loadFromConfigFile file1 (defaultConfig decl))
              (loadFromConfigFile file2 (defaultConfig decl)))
    as [T R].
  { now rewrite !loadFromConfigFile_launch_settings. }
  split; [exact T|].
  destruct (result (parseArgs decl
                      (loadFromConfigFile file1 (defaultConfig decl))
                      (pairArgs argv)));
    destruct (result (parseArgs decl
                        (loadFromConfigFile file2 (defaultConfig decl))
                        (pairArgs argv)));
    try exact R.
  unfold launch_settings in R. now injection R.
Qed.

(* ================================================================== *)
(** * Loading the same file again *)

Lemma get_int_two s o1 o2 :
  snd (IStream.get_int s o1) = snd (IStream.get_int s o2)
  /\ (fst (IStream.get_int s o1) = fst (IStream.get_int s o2)
      \/ fst (IStream.get_int s o1) = o1 /\ fst (IStream.get_int s o2) = o2).
Proof.
  unfold IStream.get_int. destruct (IStream.sentry s) as [b|].
  - destruct (Text.signed_decimal b) as [[v|] rest];
      [destruct (v <? Text.INT_MIN)%Z; [|destruct (v >? Text.INT_MAX)%Z]|];
      split; try reflexivity; now left.
  - split; [reflexivity | now right].
Qed.

Lemma get_bool_two s o1 o2 :
  snd (IStream.get_bool s o1) = snd (IStream.get_bool s o2)
  /\ (fst (IStream.get_bool s o1) = fst (IStream.get_bool s o2)
      \/ fst (IStream.get_bool s o1) = o1 /\ fst (IStream.get_bool s o2) = o2).
Proof.
  unfold IStream.get_bool. destruct (IStream.sentry s) as [b|].
  - destruct (Text.signed_decimal b) as [[v|] rest];
      [destruct (v =? 0)%Z; [|destruct (v =? 1)%Z]|];
      split; try reflexivity; now left.
  - split; [reflexivity | now right].
Qed.

Lemma get_string_two s o1 o2 :
  snd (IStream.get_string s o1) = snd (IStream.get_string s o2)
  /\ (fst (IStream.get_string s o1) = fst (IStream.get_string s o2)
      \/ fst (IStream.get_string s o1) = o1
         /\ fst (IStream.get_string s o2) = o2).
Proof.
  unfold IStream.get_string. destruct (IStream.sentry s) as [b|].
  - destruct (IStream.word b). split; [reflexivity | now left].
  - split; [reflexivity | now right].
Qed.

Lemma recognised_key line :
  recognised line = true -> exists key, line = key_name key.
Proof.
  unfold recognised. rewrite existsb_exists.
  intros (key & _ & E). apply String.eqb_eq in E. now exists key.
Qed.

(** Two runs over the same text: the stream moves alike, and each
    option ends either equal in both or untouched in both. *)
Lemma loadEntry_two c1 c2 line s :
  snd (loadEntry c1 line s) = snd (loadEntry c2 line s)
  /\ forall key,
       option_of key (fst (loadEntry c1 line s))
       = option_of key (fst (loadEntry c2 line s))
       \/ (option_of key (fst (loadEntry c1 line s)) = option_of key c1
           /\ option_of key (fst (loadEntry c2 line s)) = option_of key c2).
Proof.
  destruct (recognised line) eqn:U.
  - destruct (recognised_key line U) as [k ->].
    rewrite !loadEntry_key.
    destruct k;
      match goal with
      | |- context [IStream.get_int s ?a] =>
          match goal with
          | |- context [IStream.get_int s ?b] =>
              tryif constr_eq a b then fail else
                (destruct (get_int_two s a b) as [S V];
                 destruct (IStream.get_int s a) as [v1 s1];
                 destruct (IStream.get_int s b) as [v2 s2])
          end
      | |- context [IStream.get_bool s ?a] =>
          match goal with
          | |- context [IStream.get_bool s ?b] =>
              tryif constr_eq a b then fail else
                (destruct (get_bool_two s a b) as [S V];
                 destruct (IStream.get_bool s a) as [v1 s1];
                 destruct (IStream.get_bool s b) as [v2 s2])
          end
      | |- context [IStream.get_string s ?a] =>
          match goal with
          | |- context [IStream.get_string s ?b] =>
              tryif constr_eq a b then fail else
                (destruct (get_string_two s a b) as [S V];
                 destruct (IStream.get_string s a) as [v1 s1];
                 destruct (IStream.get_string s b) as [v2 s2])
          end
      end;
      simpl in S, V; (split; [exact S|]); intros key;
      destruct key; simpl; try (right; split; reflexivity);
      (destruct V as [-> | [-> ->]]; [now left | right; split; reflexivity]).
  - rewrite !loadEntry_unrecognised by exact U.
    split; [reflexivity|]. intros key. right. now split.
Qed.

Lemma loadLoop_two n : forall a0 b0 c1 c2 s,
  (forall key, option_of key c1 = option_of key c2
               \/ (option_of key c1 = option_of key a0
                   /\ option_of key c2 = option_of key b0)) ->
  forall key,
    option_of key (fst (loadLoop n c1 s)) = option_of key (fst (loadLoop n c2 s))
    \/ (option_of key (fst (loadLoop n c1 s)) = option_of key a0
        /\ option_of key (fst (loadLoop n c2 s)) = option_of key b0).
Proof.
  induction n as [|n IH]; intros a0 b0 c1 c2 s R; [exact R|].
  rewrite !loadLoop_S.
  destruct (IStream.get_string s EmptyString) as [line s1].
  destruct (IStream.failbit s1); [exact R|].
  destruct (loadEntry_two c1 c2 line s1) as [S V].
  destruct (loadEntry c1 line s1) as [c1' s2];
    destruct (loadEntry c2 line s1) as [c2' s2'].
  simpl in S, V. subst s2'. apply IH.
  intros key. destruct (V key) as [E | [E1 E2]]; [now left|].
  rewrite E1, E2. apply R.
Qed.

Lemma config_ext a b :
  launch_settings a = launch_settings b ->
  (forall key, option_of key a = option_of key b) ->
  a = b.
Proof.
  destruct a as [ta [ma wsa wha] [fa wwa whta ca fpa fva sa]].
  destruct b as [tb [mb wsb whb] [fb wwb whtb cb fpb fvb sb]].
  unfold launch_settings. simpl. intros L O.
  injection L as -> ->.
  pose proof (O FULLSCREEN) as H1. pose proof (O WIN_WIDTH) as H2.
  pose proof (O WIN_HEIGHT) as H3. pose proof (O FPS_CAPPED) as H4.
  pose proof (O FPS) as H5. pose proof (O FOV) as H6.
  pose proof (O SKIN) as H7. pose proof (O WORLD_HEIGHT) as H8.
  pose proof (O WORLD_SIZE) as H9.
  simpl in *. congruence.
Qed.

(** X21. Loading is idempotent: reading the same [config.txt] a second
    time changes nothing, whatever the file holds (well-formed lines,
    unknown words, values that fail to parse). *)
Theorem X21_loading_twice_is_loading_once :
  forall (file : option string) (config : Config),
    loadFromConfigFile file (loadFromConfigFile file config)
    = loadFromConfigFile file config.
Proof.
  intros file config. apply config_ext.
  - now rewrite !loadFromConfigFile_launch_settings.
  - intros key. unfold loadFromConfigFile at 1 3. unfold run_loadLoop.
    destruct (loadLoop_two
                (S (String.length (IStream.buf (IStream.open file))))
                (loadFromConfigFile file config) config
                (loadFromConfigFile file config) config
                (IStream.open file)
                (fun k => or_intror (conj eq_refl eq_refl)) key)
      as [E | [E _]].
    + rewrite E. reflexivity.
    + exact E.
Qed.

(* ================================================================== *)
(** * When an engine is launched *)

Lemma launchSwitch_runs e config :
  existsb is_engine_run (trace (launchSwitch e config)) = true.
Proof.
  unfold launchSwitch, launchBoth, launchServerAnd2Players.
  destruct (launchType config); try destruct (clientEngine e); reflexivity.
Qed.

(** X22. [main] launches something (runs an engine or starts a thread)
    exactly when [enet_initialize] succeeded and no paired [-server]
    count overflows [int]; otherwise it ends without having launched
    anything. *)
Theorem X22_when_main_launches :
  forall (decl : Declarations) (inp : Inputs),
    existsb is_engine_run (fst (main decl inp)) = true
    <-> enet_initialize inp = 0
        /\ existsb aborts_on (pairArgs (argv inp)) = false.
Proof.
  intros decl inp.
  destruct (main_cases decl inp)
    as [(E & M) | [(E & X & t & F & M) | (E & X & t & c & code & _ & F & _ & _ & M)]];
    rewrite M; simpl fst.
  - split; [discriminate | intros [E' _]; contradiction].
  - destruct (stdout_only t F) as (_ & R & _).
    change (EnetInitialize :: t) with ([EnetInitialize] ++ t)%list.
    rewrite existsb_app, R. simpl.
    split; [discriminate | intros [_ X']; congruence].
  - change (EnetInitialize :: t ++ trace (launchSwitch (engines inp) c))%list
      with ([EnetInitialize] ++ t ++ trace (launchSwitch (engines inp) c))%list.
    rewrite !existsb_app, launchSwitch_runs, orb_true_r.
    split; [now intros _ | reflexivity].
Qed.

Lemma X22_when_main_launches_witness :
  existsb is_engine_run
    (fst (main sample_declarations
            (mkInputs ["open-builder"; "-server"; "1"; "-skin"; "red"]
               (Some "FOV wide") 0 quiet_engines))) = true.
Proof.
  apply (proj2 (X22_when_main_launches sample_declarations
                  (mkInputs ["open-builder"; "-server"; "1"; "-skin"; "red"]
                     (Some "FOV wide") 0 quiet_engines))).
  split; reflexivity.
Defined.
